(** * ConTima: file intake, prompt assembly, response normalisation, chat turns

    A shallow embedding of the TypeScript sources
      - [types.ts], [utils/fileUtils.ts], [services/geminiService.ts],
      - [App.tsx] (the upload / analyse workflow),
      - [components/ChatInterface.tsx] (the chat turn handler) and
      - [components/AnalysisReport.tsx] (the report), with the Markdown
        renderer that the two components share,
    together with the part of the JavaScript runtime those sources lean on
    (strings, JSON values, property access, [JSON.parse], [JSON.stringify]). *)

From Stdlib Require Import ZArith NArith Ascii String DecimalString Lia.
From stdpp Require Import base ssreflect option list gmap.

Set Warnings "-rewrite-rw".
Local Open Scope N_scope.

(** ** Strings

    A JavaScript string is a sequence of UTF-16 code units; [length],
    [substring] and concatenation all count code units.  A string is a list of
    code units here, so that the list operations are the string operations. *)

Abbreviation jsstring := (list N).

(** The code units of a literal of the source; [\n] is the one escape the
    literals of the sources use. *)
Fixpoint unescape (s : list ascii) : jsstring :=
  match s with
  | [] => []
  | c :: rest =>
      match rest with
      | d :: rest' =>
          if (N_of_ascii c =? 92) && (N_of_ascii d =? 110) then 10 :: unescape rest'
          else N_of_ascii c :: unescape rest
      | [] => [N_of_ascii c]
      end
  end.

Definition lit (s : string) : jsstring := unescape (list_ascii_of_string s).
Arguments lit s%_string.

Definition is_char (a : ascii) (c : N) : bool := c =? N_of_ascii a.
Arguments is_char a%_char c.

Definition is_digit (c : N) : bool := (48 <=? c) && (c <=? 57).

(** Decimal digits of a natural number: what [`${i}`] and [String(i)] give for
    every integer below 10^21, array indices in particular. *)
Definition decimal (n : N) : jsstring := lit (NilZero.string_of_uint (N.to_uint n)).

(** ** Numbers

    A number read from JSON is kept as the decimal it was written as,
    [mantissa * 10 ^ exponent], with no trailing zero in the mantissa, zero
    being [0 * 10 ^ 0].  The sources never compute with response numbers: they
    copy them, test them for truthiness and, at most, turn them into strings. *)

Record JSNumber := Dec { mantissa : Z; exponent : Z }.

Definition digit_value (c : N) : Z := Z.of_N (c - 48).

Definition digits_value (ds : jsstring) : Z :=
  foldl (λ acc d, 10 * acc + digit_value d)%Z 0%Z ds.

Fixpoint strip_zeros (rev_digits : jsstring) (e : Z) : jsstring * Z :=
  match rev_digits with
  | d :: ds => if is_char "0" d then strip_zeros ds (e + 1)%Z else (rev_digits, e)
  | [] => ([], 0%Z)
  end.

(** [int_digits . frac_digits e exp] with an optional sign. *)
Definition make_number (negative : bool) (int_digits frac_digits : jsstring) (exp : Z) : JSNumber :=
  let '(ds, e) := strip_zeros (reverse (int_digits ++ frac_digits))
                              (exp - Z.of_nat (length frac_digits))%Z in
  let m := digits_value (reverse ds) in
  Dec (if negative then (- m)%Z else m) e.

Definition number_of_N (n : N) : JSNumber := make_number false (decimal n) [] 0.

(** ** Values *)

#[warnings="-register-all"]
Inductive JSValue :=
  | JUndefined
  | JNull
  | JBool (b : bool)
  | JNumber (n : JSNumber)
  | JString (s : jsstring)
  | JArray (elements : list JSValue)
  | JObject (properties : list (jsstring * JSValue)).

(** The own properties of an ordinary object, in enumeration order. *)
Abbreviation props := (list (jsstring * JSValue)).

(** ** Completions

    An operation returns, throws, or leaves the modelled fragment of the
    language.  The model is left in two places only: when a number outside
    the range where decimals and binary64 agree has to be printed, and when an
    assignment to [__proto__] replaces the prototype of an object. *)

Inductive Thrown :=
  | Error (message : jsstring)            (* [new Error(message)] *)
  | TypeError                             (* raised by the runtime *)
  | SyntaxError                           (* raised by [JSON.parse] *)
  | ReadFailure                           (* the error event of a FileReader *)
  | Rejection (message : option jsstring) (* what the model client rejects with *).

Inductive Completion (A : Type) :=
  | Normal (a : A)
  | Throw (e : Thrown)
  | OutOfModel.
Arguments Normal {A} a.
Arguments Throw {A} e.
Arguments OutOfModel {A}.

Global Instance Completion_ret : MRet Completion := λ A a, Normal a.
Global Instance Completion_bind : MBind Completion := λ A B f m,
  match m with
  | Normal a => f a
  | Throw e => Throw e
  | OutOfModel => OutOfModel
  end.
Global Instance Completion_fmap : FMap Completion := λ A B f m,
  match m with
  | Normal a => Normal (f a)
  | Throw e => Throw e
  | OutOfModel => OutOfModel
  end.

(** ** Number to string

    [Number::toString] of ECMA-262 for radix 10, on the decimal: with [k]
    digits and the decimal point after the [n]-th.  A decimal of at most 15
    significant digits and of magnitude between 1e-300 and 1e300 survives the
    rounding to binary64 and back, so its digits are the digits JavaScript
    prints; anything else is outside the model. *)

Definition zeros (n : Z) : jsstring := replicate (Z.to_nat n) 48.

Definition Number_toString (x : JSNumber) : Completion jsstring :=
  let m := mantissa x in
  if (m =? 0)%Z then Normal (lit "0") else
  let sign := if (m <? 0)%Z then lit "-" else [] in
  let ds := decimal (Z.to_N (Z.abs m)) in
  let k := Z.of_nat (length ds) in
  let n := (k + exponent x)%Z in
  if (15 <? k)%Z || (n <? -300)%Z || (300 <? n)%Z then OutOfModel else
  Normal (sign ++
    if (k <=? n)%Z && (n <=? 21)%Z then ds ++ zeros (n - k)
    else if (0 <? n)%Z && (n <=? 21)%Z then
      take (Z.to_nat n) ds ++ lit "." ++ drop (Z.to_nat n) ds
    else if (-6 <? n)%Z && (n <=? 0)%Z then lit "0." ++ zeros (- n) ++ ds
    else
      let e := (n - 1)%Z in
      let esign := if (e <? 0)%Z then lit "-" else lit "+" in
      let etxt := decimal (Z.to_N (Z.abs e)) in
      match ds with
      | [d] => [d] ++ lit "e" ++ esign ++ etxt
      | d :: rest => [d] ++ lit "." ++ rest ++ lit "e" ++ esign ++ etxt
      | [] => []
      end).

(** ** Objects

    The own properties of an ordinary object are kept in the order in which
    the runtime enumerates them: array indices first, in ascending order, then
    the other names in the order of their creation. *)

Fixpoint own (k : jsstring) (ps : props) : option JSValue :=
  match ps with
  | [] => None
  | (k', v) :: ps => if decide (k' = k) then Some v else own k ps
  end.

Definition array_index (k : jsstring) : option N :=
  match k with
  | [] => None
  | c :: rest =>
      if forallb is_digit k && (negb (is_char "0" c) || bool_decide (rest = [])) then
        let i := Z.to_N (digits_value k) in
        if i <=? 4294967294 then Some i else None
      else None
  end.

Fixpoint update (k : jsstring) (v : JSValue) (ps : props) : props :=
  match ps with
  | [] => []
  | (k', v') :: ps => if decide (k' = k) then (k', v) :: ps else (k', v') :: update k v ps
  end.

Fixpoint insert_index (i : N) (k : jsstring) (v : JSValue) (ps : props) : props :=
  match ps with
  | [] => [(k, v)]
  | (k', v') :: rest =>
      match array_index k' with
      | Some j => if j <? i then (k', v') :: insert_index i k v rest else (k, v) :: ps
      | None => (k, v) :: ps
      end
  end.

(** [CreateDataProperty]: what an object literal, a spread and [JSON.parse]
    do with a key. *)
Definition define (k : jsstring) (v : JSValue) (ps : props) : props :=
  match own k ps with
  | Some _ => update k v ps
  | None =>
      match array_index k with
      | Some i => insert_index i k v ps
      | None => ps ++ [(k, v)]
      end
  end.

(** [obj[k] = v] on an ordinary object whose prototype is [Object.prototype].
    An own property is overwritten in place.  Otherwise the prototype decides:
    [__proto__] is an accessor there, whose setter ignores a primitive and
    replaces the prototype by an object or [null] (outside the model); every
    other inherited name is a writable data property, so the assignment
    creates an own property. *)
Definition set_property (k : jsstring) (v : JSValue) (ps : props) : Completion props :=
  match own k ps with
  | Some _ => Normal (update k v ps)
  | None =>
      if decide (k = lit "__proto__") then
        match v with
        | JNull | JArray _ | JObject _ => OutOfModel
        | _ => Normal ps
        end
      else Normal (define k v ps)
  end.

(** [v.k] for a name [k] that no built-in prototype defines and that is neither
    an index nor [length]: every name the sources read is of this kind
    ([charts], [data], [xAxisKey], [name], [series], [key], [value],
    [combinedStrategicInsights], [recommendations], [filesDetected]). *)
Definition Get (v : JSValue) (k : jsstring) : Completion JSValue :=
  match v with
  | JUndefined | JNull => Throw TypeError
  | JObject ps => Normal (default JUndefined (own k ps))
  | _ => Normal JUndefined
  end.

Definition truthy (v : JSValue) : bool :=
  match v with
  | JUndefined | JNull => false
  | JBool b => b
  | JNumber n => negb (mantissa n =? 0)%Z
  | JString s => negb (bool_decide (s = []))
  | JArray _ | JObject _ => true
  end.

Definition isArray (v : JSValue) : bool :=
  match v with JArray _ => true | _ => false end.

Definition nullish (v : JSValue) : bool :=
  match v with JUndefined | JNull => true | _ => false end.

(** The own enumerable properties that [{...v}] copies. *)
Definition spread (v : JSValue) : props :=
  match v with
  | JObject ps => ps
  | JArray l => imap (λ i x, (decimal (N.of_nat i), x)) l
  | JString s => imap (λ i c, (decimal (N.of_nat i), JString [c])) s
  | _ => []
  end.

(** [v.map(f)]: only an array has a callable [map]. *)
Definition call_map (v : JSValue) (f : JSValue → Completion JSValue) : Completion JSValue :=
  match v with
  | JArray l => JArray <$> mapM f l
  | _ => Throw TypeError
  end.

(** [l.forEach(s => ...)] where the callback updates a captured variable. *)
Fixpoint forEach {St : Type} (l : list JSValue) (f : St → JSValue → Completion St) (s : St)
  : Completion St :=
  match l with
  | [] => Normal s
  | x :: l => s' ← f s x; forEach l f s'
  end.

(** [ToString], which is also [ToPropertyKey] on these values.  An object is
    printed by [Object.prototype.toString] unless it has an own [toString]
    property, which, coming from JSON, is not callable; [valueOf] then returns
    no primitive either. *)
Fixpoint ToString (v : JSValue) : Completion jsstring :=
  match v with
  | JUndefined => Normal (lit "undefined")
  | JNull => Normal (lit "null")
  | JBool b => Normal (if b then lit "true" else lit "false")
  | JNumber n => Number_toString n
  | JString s => Normal s
  | JArray l =>
      (fix join (l : list JSValue) : Completion jsstring :=
         match l with
         | [] => Normal []
         | x :: rest =>
             sx ← (if nullish x then Normal [] else ToString x);
             match rest with
             | [] => Normal sx
             | _ => srest ← join rest; Normal (sx ++ lit "," ++ srest)
             end
         end) l
  | JObject ps =>
      match own (lit "toString") ps with
      | Some _ => Throw TypeError
      | None => Normal (lit "[object Object]")
      end
  end.

Definition ToPropertyKey : JSValue → Completion jsstring := ToString.

(** ** JSON.stringify *)

Definition hex_digit (d : N) : N := if d <? 10 then 48 + d else 87 + d.

Definition unicode_escape (c : N) : jsstring :=
  [92; 117; hex_digit (c / 4096); hex_digit (c / 256 mod 16);
   hex_digit (c / 16 mod 16); hex_digit (c mod 16)].

Definition high_surrogate (c : N) : bool := (55296 <=? c) && (c <=? 56319).
Definition low_surrogate (c : N) : bool := (56320 <=? c) && (c <=? 57343).

(** Backslash is 92, the double quote 34; the letters are b, t, n, f, r. *)
Definition quote_unit (c : N) : jsstring :=
  if c =? 8 then [92; 98] else if c =? 9 then [92; 116]
  else if c =? 10 then [92; 110] else if c =? 12 then [92; 102]
  else if c =? 13 then [92; 114] else if c =? 34 then [92; 34]
  else if c =? 92 then [92; 92]
  else if (c <? 32) || high_surrogate c || low_surrogate c then unicode_escape c
  else [c].

Fixpoint quote_units (s : jsstring) : jsstring :=
  match s with
  | [] => []
  | c :: rest =>
      match rest with
      | d :: rest' =>
          if high_surrogate c && low_surrogate d then c :: d :: quote_units rest'
          else quote_unit c ++ quote_units rest
      | [] => quote_unit c
      end
  end.

Definition quote (s : jsstring) : jsstring := [34] ++ quote_units s ++ [34].

Fixpoint join_with (sep : jsstring) (parts : list jsstring) : jsstring :=
  match parts with
  | [] => []
  | [p] => p
  | p :: rest => p ++ sep ++ join_with sep rest
  end.

(** [SerializeJSONProperty] without replacer and indentation; [None] is the
    [undefined] that makes an object skip the property. *)
Fixpoint serialize (v : JSValue) : Completion (option jsstring) :=
  match v with
  | JUndefined => Normal None
  | JNull => Normal (Some (lit "null"))
  | JBool b => Normal (Some (if b then lit "true" else lit "false"))
  | JNumber n => Some <$> Number_toString n
  | JString s => Normal (Some (quote s))
  | JArray l =>
      items ← (fix go (l : list JSValue) : Completion (list jsstring) :=
                 match l with
                 | [] => Normal []
                 | x :: r => sx ← serialize x; sr ← go r;
                             Normal (default (lit "null") sx :: sr)
                 end) l;
      Normal (Some (lit "[" ++ join_with (lit ",") items ++ lit "]"))
  | JObject ps =>
      members ← (fix go (ps : props) : Completion (list jsstring) :=
                   match ps with
                   | [] => Normal []
                   | (k, x) :: r =>
                       sx ← serialize x; sr ← go r;
                       Normal (match sx with
                               | Some t => (quote k ++ lit ":" ++ t) :: sr
                               | None => sr
                               end)
                   end) ps;
      Normal (Some (lit "{" ++ join_with (lit ",") members ++ lit "}"))
  end.

(** [`${JSON.stringify(v)}`] *)
Definition JSON_stringify (v : JSValue) : Completion jsstring :=
  default (lit "undefined") <$> serialize v.

(** ** JSON.parse

    A lexer and a pushdown parser, both by structural recursion on their
    input, so that [None] always is a syntax error. *)

Inductive Token :=
  | TLBrace | TRBrace | TLBracket | TRBracket | TColon | TComma
  | TString (s : jsstring)
  | TNumber (n : JSNumber)
  | TTrue | TFalse | TNull.

(** The number grammar: an optional minus; the integer part, a single zero or
    digits that do not start with zero; an optional point with at least one
    digit; an optional exponent, e or E, an optional sign, at least one digit. *)
Fixpoint span_digits (s : jsstring) : jsstring * jsstring :=
  match s with
  | c :: rest =>
      if is_digit c then let '(ds, r) := span_digits rest in (c :: ds, r) else ([], s)
  | [] => ([], [])
  end.

Definition number_exponent (s : jsstring) : option Z :=
  match s with
  | [] => Some 0%Z
  | c :: rest =>
      if is_char "e" c || is_char "E" c then
        let '(negative, rest) :=
          match rest with
          | d :: rest' => if is_char "-" d then (true, rest')
                          else if is_char "+" d then (false, rest') else (false, rest)
          | [] => (false, rest)
          end in
        let '(ds, rest) := span_digits rest in
        match ds, rest with
        | _ :: _, [] => Some (if negative then - digits_value ds else digits_value ds)%Z
        | _, _ => None
        end
      else None
  end.

Definition number_of (s : jsstring) : option JSNumber :=
  let '(negative, s) :=
    match s with
    | c :: rest => if is_char "-" c then (true, rest) else (false, s)
    | [] => (false, s)
    end in
  let '(int_digits, rest) := span_digits s in
  match int_digits with
  | [] => None
  | c :: more =>
      if is_char "0" c && negb (bool_decide (more = [])) then None else
      let '(frac, rest) :=
        match rest with
        | d :: rest' => if is_char "." d then
                          let '(fs, r) := span_digits rest' in (Some fs, r)
                        else (None, rest)
        | [] => (None, rest)
        end in
      match frac with
      | Some [] => None
      | _ => make_number negative int_digits (default [] frac) <$> number_exponent rest
      end
  end.

Inductive LexState :=
  | LStart
  | LString (rev_units : jsstring)
  | LEscape (rev_units : jsstring)
  | LUnicode (rev_units : jsstring) (seen : nat) (value : N)
  | LNumber (rev_units : jsstring)
  | LLiteral (expected : jsstring) (token : Token).

Definition hex_value (c : N) : option N :=
  if is_digit c then Some (c - 48)
  else if (97 <=? c) && (c <=? 102) then Some (c - 87)
  else if (65 <=? c) && (c <=? 70) then Some (c - 55)
  else None.

Definition is_whitespace (c : N) : bool :=
  (c =? 32) || (c =? 9) || (c =? 10) || (c =? 13).

Definition is_number_unit (c : N) : bool :=
  is_digit c || is_char "-" c || is_char "+" c || is_char "." c || is_char "e" c || is_char "E" c.

(** One code unit read between tokens: the token it is, if any, and the
    state it leaves the lexer in. *)
Definition lex_start (c : N) : option (list Token * LexState) :=
  if is_whitespace c then Some ([], LStart)
  else if is_char "{" c then Some ([TLBrace], LStart)
  else if is_char "}" c then Some ([TRBrace], LStart)
  else if is_char "[" c then Some ([TLBracket], LStart)
  else if is_char "]" c then Some ([TRBracket], LStart)
  else if is_char ":" c then Some ([TColon], LStart)
  else if is_char "," c then Some ([TComma], LStart)
  else if c =? 34 then Some ([], LString [])
  else if is_char "-" c || is_digit c then Some ([], LNumber [c])
  else if is_char "t" c then Some ([], LLiteral (lit "rue") TTrue)
  else if is_char "f" c then Some ([], LLiteral (lit "alse") TFalse)
  else if is_char "n" c then Some ([], LLiteral (lit "ull") TNull)
  else None.

Definition lex_step (st : LexState) (c : N) : option (list Token * LexState) :=
  match st with
  | LStart => lex_start c
  | LString acc =>
      if c =? 34 then Some ([TString (reverse acc)], LStart)
      else if c =? 92 then Some ([], LEscape acc)
      else if c <? 32 then None
      else Some ([], LString (c :: acc))
  | LEscape acc =>
      if (c =? 34) || (c =? 92) || is_char "/" c then Some ([], LString (c :: acc))
      else if is_char "b" c then Some ([], LString (8 :: acc))
      else if is_char "f" c then Some ([], LString (12 :: acc))
      else if is_char "n" c then Some ([], LString (10 :: acc))
      else if is_char "r" c then Some ([], LString (13 :: acc))
      else if is_char "t" c then Some ([], LString (9 :: acc))
      else if is_char "u" c then Some ([], LUnicode acc 0 0)
      else None
  | LUnicode acc seen value =>
      h ← hex_value c;
      let value := 16 * value + h in
      Some ([], if decide (seen = 3%nat) then LString (value :: acc)
                else LUnicode acc (S seen) value)
  | LNumber acc =>
      if is_number_unit c then Some ([], LNumber (c :: acc))
      else
        n ← number_of (reverse acc);
        '(toks, st') ← lex_start c;
        Some (TNumber n :: toks, st')
  | LLiteral expected token =>
      match expected with
      | e :: rest =>
          if c =? e then
            Some (match rest with
                  | [] => ([token], LStart)
                  | _ => ([], LLiteral rest token)
                  end)
          else None
      | [] => None
      end
  end.

Fixpoint lex (st : LexState) (s : jsstring) : option (list Token) :=
  match s with
  | [] =>
      match st with
      | LStart => Some []
      | LNumber acc => n ← number_of (reverse acc); Some [TNumber n]
      | _ => None
      end
  | c :: rest =>
      '(toks, st') ← lex_step st c;
      more ← lex st' rest;
      Some (toks ++ more)
  end.

(** The containers that are open, innermost first. *)
Inductive Open :=
  | InArray (rev_elements : list JSValue)
  | InObject (properties : props) (pending_key : option jsstring).

Inductive Expect :=
  | EValue          (* a value *)
  | EValueOrClose   (* right after an opening bracket *)
  | EKeyOrClose     (* right after an opening brace *)
  | EKey            (* after a comma in an object *)
  | EColon
  | ECommaOrClose   (* after a value in a container *)
  | EEnd (v : JSValue).

Definition close_value (v : JSValue) (stack : list Open) : option (list Open * Expect) :=
  match stack with
  | [] => Some ([], EEnd v)
  | InArray acc :: stack => Some (InArray (v :: acc) :: stack, ECommaOrClose)
  | InObject ps (Some k) :: stack => Some (InObject (define k v ps) None :: stack, ECommaOrClose)
  | InObject _ None :: _ => None
  end.

Definition parse_value_token (t : Token) (stack : list Open) : option (list Open * Expect) :=
  match t with
  | TLBracket => Some (InArray [] :: stack, EValueOrClose)
  | TLBrace => Some (InObject [] None :: stack, EKeyOrClose)
  | TString s => close_value (JString s) stack
  | TNumber n => close_value (JNumber n) stack
  | TTrue => close_value (JBool true) stack
  | TFalse => close_value (JBool false) stack
  | TNull => close_value JNull stack
  | _ => None
  end.

Definition close_array (stack : list Open) : option (list Open * Expect) :=
  match stack with
  | InArray acc :: stack => close_value (JArray (reverse acc)) stack
  | _ => None
  end.

Definition close_object (stack : list Open) : option (list Open * Expect) :=
  match stack with
  | InObject ps None :: stack => close_value (JObject ps) stack
  | _ => None
  end.

Definition open_key (k : jsstring) (stack : list Open) : option (list Open * Expect) :=
  match stack with
  | InObject ps None :: stack => Some (InObject ps (Some k) :: stack, EColon)
  | _ => None
  end.

Definition parse_step (stack : list Open) (e : Expect) (t : Token)
  : option (list Open * Expect) :=
  match e, t with
  | EValue, _ => parse_value_token t stack
  | EValueOrClose, TRBracket => close_array stack
  | EValueOrClose, _ => parse_value_token t stack
  | EKeyOrClose, TRBrace => close_object stack
  | EKeyOrClose, TString k | EKey, TString k => open_key k stack
  | EColon, TColon => Some (stack, EValue)
  | ECommaOrClose, TComma =>
      match stack with
      | InArray _ :: _ => Some (stack, EValue)
      | InObject _ _ :: _ => Some (stack, EKey)
      | [] => None
      end
  | ECommaOrClose, TRBracket => close_array stack
  | ECommaOrClose, TRBrace => close_object stack
  | _, _ => None
  end.

Fixpoint parse_tokens (stack : list Open) (e : Expect) (ts : list Token) : option JSValue :=
  match ts with
  | [] => match e with EEnd v => Some v | _ => None end
  | t :: ts => '(stack', e') ← parse_step stack e t; parse_tokens stack' e' ts
  end.

Definition JSON_parse (text : jsstring) : option JSValue :=
  lex LStart text ≫= parse_tokens [] EValue.

(** ** Promises

    An [async] function either fulfils or rejects its promise, and [await]
    passes the value on or rethrows, which is the bind of [Completion].
    [Promise.all] fulfils with all the values or rejects with the reason of a
    rejected member; the members below reject with reasons that the handlers
    cannot tell apart, so the one met first in the array is taken. *)

Fixpoint Promise_all {A : Type} (promises : list (Completion A)) : Completion (list A) :=
  match promises with
  | [] => Normal []
  | p :: promises => a ← p; rest ← Promise_all promises; Normal (a :: rest)
  end.

(** [l.forEach((x, index) => ...)] where the callback updates a captured
    variable of type [St]. *)
Fixpoint forEach_from {A St : Type} (index : nat) (l : list A) (f : St → A → nat → St)
    (s : St) : St :=
  match l with
  | [] => s
  | x :: l => forEach_from (S index) l f (f s x index)
  end.

Definition forEach_indexed {A St : Type} : list A → (St → A → nat → St) → St → St :=
  forEach_from 0.

(** * types.ts *)

Module FileData.
Record t := { name : jsstring; content : jsstring; size : N }.
End FileData.

Inductive AppState := IDLE | ANALYZING | COMPLETE | ERROR.

Inductive Role := user | model.

Module ChatMessage.
(** [isStreaming] is optional: [None] is a message without the field. *)
Record t := { id : jsstring; role : Role; text : jsstring; isStreaming : option bool }.
End ChatMessage.

(** * utils/fileUtils.ts *)

(** What a [FileReader] does with a file: it fires [onload] with the decoded
    text, or [onerror]. *)
Inductive ReadEvent :=
  | onload (result : jsstring)
  | onerror.

(** The browser's file handle: its name, its size in bytes, and the event
    that reading it as text ends in. *)
Module File.
Record t := { name : jsstring; size : N; readAsText : ReadEvent }.
End File.

Definition MAX_CHARS : N := 150000.

Definition TRUNCATED : jsstring := lit "\n...[TRUNCATED]".

(** [content.substring(0, MAX_CHARS)] *)
Definition substring_to (n : N) (s : jsstring) : jsstring := take (N.to_nat n) s.

Definition readFileAsText (file : File.t) : Completion FileData.t :=
  match File.readAsText file with
  | onload content =>
      let truncatedContent :=
        if MAX_CHARS <? N.of_nat (length content)
        then substring_to MAX_CHARS content ++ TRUNCATED
        else content in
      Normal {| FileData.name := File.name file;
                FileData.content := truncatedContent;
                FileData.size := File.size file |}
  | onerror => Throw ReadFailure
  end.

(** * services/geminiService.ts *)

(** [!process.env.API_KEY]: the variable is unset or empty. *)
Definition missing (key : option jsstring) : bool :=
  match key with
  | None | Some [] => true
  | Some (_ :: _) => false
  end.

(** The prompt content of [analyzeFiles]. *)
Definition promptText (files : list FileData.t) : jsstring :=
  let promptText := lit "Analyze the following CSV files:\n\n" in
  let promptText :=
    forEach_indexed files (λ promptText file index,
      let promptText :=
        promptText ++ lit "--- FILE " ++ decimal (N.of_nat (index + 1)) ++ lit ": "
                   ++ FileData.name file ++ lit " ---\n" in
      promptText ++ FileData.content file ++ lit "\n\n") promptText in
  promptText ++ lit "\nProvide a detailed analysis following the ConTima structure.".

(** The callback of [chart.data?.map]: one nested item to one flat record. *)
Definition dataPoint (chart item : JSValue) : Completion JSValue :=
  xAxisKey ← Get chart (lit "xAxisKey");
  k ← ToPropertyKey xAxisKey;
  name ← Get item (lit "name");
  let dataPoint : props := [(k, name)] in
  series ← Get item (lit "series");
  dataPoint ←
    (if truthy series && isArray series then
       match series with
       | JArray entries =>
           forEach entries (λ dataPoint s,
             key ← Get s (lit "key");
             value ← Get s (lit "value");
             k ← ToPropertyKey key;
             set_property k value dataPoint) dataPoint
       | _ => Normal dataPoint
       end
     else Normal dataPoint);
  Normal (JObject dataPoint).

(** [chart.data?.map(...) || []] *)
Definition flatData (chart : JSValue) : Completion JSValue :=
  data ← Get chart (lit "data");
  mapped ← (if nullish data then Normal JUndefined else call_map data (dataPoint chart));
  Normal (if truthy mapped then mapped else JArray []).

(** The callback of [result.charts.map]: [{ ...chart, data: flatData }]. *)
Definition flattenChart (chart : JSValue) : Completion JSValue :=
  flatData ← flatData chart;
  Normal (JObject (define (lit "data") flatData (spread chart))).

(** "Transform charts data from schema-compliant format to flat format". *)
Definition transformCharts (result : JSValue) : Completion JSValue :=
  charts ← Get result (lit "charts");
  if truthy charts && isArray charts then
    charts ← call_map charts flattenChart;
    match result with
    | JObject ps => JObject <$> set_property (lit "charts") charts ps
    | _ => Normal result
    end
  else Normal result.

(** [analyzeFiles], given the environment: the API key of the process and the
    model client, which answers the prompt with a response whose [text] may be
    undefined, or rejects. *)
Definition analyzeFiles (API_KEY : option jsstring)
    (generateContent : jsstring → Completion (option jsstring))
    (files : list FileData.t) : Completion JSValue :=
  if missing API_KEY then
    Throw (Error (lit "API Key is missing. Please set the API_KEY environment variable."))
  else
    let promptText := promptText files in
    response ← generateContent promptText;
    match response with
    | None | Some [] => Throw (Error (lit "No response from Gemini"))
    | Some text =>
        match JSON_parse text with
        | None => Throw SyntaxError
        | Some result => transformCharts result
        end
    end.

(** The chat session handle, known by the messages sent on it. *)
Record Chat := { history : list jsstring }.

(** The context message of [initializeChat]. *)
Definition contextMsg (files : list FileData.t) (analysis : JSValue) : Completion jsstring :=
  let contextMsg := lit "Here is the context for our session:\n\n" in
  let contextMsg :=
    forEach_indexed files (λ contextMsg f i,
      contextMsg ++ lit "--- FILE " ++ decimal (N.of_nat (i + 1)) ++ lit ": "
                 ++ FileData.name f ++ lit " ---\n" ++ FileData.content f ++ lit "\n\n")
      contextMsg in
  insights ← Get analysis (lit "combinedStrategicInsights");
  recommendations ← Get analysis (lit "recommendations");
  filesDetected ← Get analysis (lit "filesDetected");
  let analysisSummary :=
    JObject [(lit "insights", insights);
             (lit "recommendations", recommendations);
             (lit "filesDetected", filesDetected)] in
  summary ← JSON_stringify analysisSummary;
  let contextMsg :=
    contextMsg ++ lit "--- INITIAL ANALYSIS SUMMARY ---\n" ++ summary ++ lit "\n\n" in
  Normal (contextMsg ++
    lit "Please acknowledge you have received the data and are ready for questions. Do not repeat the analysis.").

(** [initializeChat], given the API key and the client's answer to the
    context message. *)
Definition initializeChat (API_KEY : option jsstring)
    (sendMessage : jsstring → Completion unit)
    (files : list FileData.t) (analysis : JSValue) : Completion Chat :=
  if missing API_KEY then Throw (Error (lit "API Key is missing."))
  else
    contextMsg ← contextMsg files analysis;
    _ ← sendMessage contextMsg;
    Normal {| history := [contextMsg] |}.

(** * App.tsx *)

(** What [err.message || fallback] shows.  The text of an error raised by the
    runtime is chosen by the engine (and never empty), so it is kept as the
    error it belongs to. *)
Inductive ErrorText :=
  | Literal (s : jsstring)
  | RuntimeMessage (e : Thrown).

Definition message_or (err : Thrown) (fallback : jsstring) : ErrorText :=
  match err with
  | Error ((_ :: _) as m) | Rejection (Some ((_ :: _) as m)) => Literal m
  | Error [] | Rejection _ | ReadFailure => Literal fallback
  | TypeError | SyntaxError => RuntimeMessage err
  end.

Module App.

Record t := {
  files : list File.t;
  fileDataList : list FileData.t;
  appState : AppState;
  analysisData : option JSValue;
  errorMsg : option ErrorText
}.

Definition initial : t :=
  {| files := []; fileDataList := []; appState := IDLE;
     analysisData := None; errorMsg := None |}.

(** "Append new files to existing ones, avoiding duplicates by name" *)
Definition handleFilesSelected (newFiles : list File.t) (st : t) : t :=
  let prev := files st in
  let existingNames : gset jsstring := list_to_set (File.name <$> prev) in
  let filteredNew := filter (λ f, File.name f ∉ existingNames) newFiles in
  {| files := prev ++ filteredNew;
     fileDataList := fileDataList st; appState := appState st;
     analysisData := analysisData st;
     errorMsg := None |}.

(** [prev.filter((_, i) => i !== index)] *)
Fixpoint filter_index {A : Type} (keep : nat → bool) (i : nat) (l : list A) : list A :=
  match l with
  | [] => []
  | x :: l => if keep i then x :: filter_index keep (S i) l else filter_index keep (S i) l
  end.

Definition handleRemoveFile (index : nat) (st : t) : t :=
  {| files := filter_index (λ i, negb (i =? index)%nat) 0 (files st);
     fileDataList := fileDataList st; appState := appState st;
     analysisData := analysisData st; errorMsg := errorMsg st |}.

(** The state in which the [catch] block of [handleAnalyze] leaves [st]. *)
Definition failed (err : Thrown) (st : t) : t :=
  {| files := files st; fileDataList := fileDataList st;
     appState := ERROR;
     analysisData := analysisData st;
     errorMsg := Some (message_or err (lit "An unexpected error occurred during analysis.")) |}.

(** [handleAnalyze], run to the end of the [async] function; [None] when the
    run leaves the model. *)
Definition handleAnalyze (API_KEY : option jsstring)
    (generateContent : jsstring → Completion (option jsstring)) (st : t) : option t :=
  if decide (length (files st) = 0%nat) then Some st else
  let st := {| files := files st; fileDataList := fileDataList st;
               appState := ANALYZING;
               analysisData := analysisData st; errorMsg := None |} in
  let filePromises := readFileAsText <$> files st in
  match Promise_all filePromises with
  | Normal dataList =>
      let st := {| files := files st; fileDataList := dataList;
                   appState := appState st;
                   analysisData := analysisData st; errorMsg := errorMsg st |} in
      match analyzeFiles API_KEY generateContent dataList with
      | Normal result =>
          Some {| files := files st; fileDataList := fileDataList st;
                  appState := COMPLETE;
                  analysisData := Some result; errorMsg := errorMsg st |}
      | Throw err => Some (failed err st)
      | OutOfModel => None
      end
  | Throw err => Some (failed err st)
  | OutOfModel => None
  end.

Definition resetAnalysis (st : t) : t :=
  {| files := []; fileDataList := []; appState := IDLE;
     analysisData := None; errorMsg := errorMsg st |}.

(** The "Try Again" button. *)
Definition tryAgain (st : t) : t :=
  {| files := files st; fileDataList := fileDataList st; appState := IDLE;
     analysisData := analysisData st; errorMsg := errorMsg st |}.

End App.

(** * components/ChatInterface.tsx *)

(** White space and line terminators, which [trim] removes. *)
Definition is_space (c : N) : bool :=
  ((9 <=? c) && (c <=? 13)) || (c =? 32) || (c =? 160) || (c =? 5760)
  || ((8192 <=? c) && (c <=? 8202)) || (c =? 8232) || (c =? 8233)
  || (c =? 8239) || (c =? 8287) || (c =? 12288) || (c =? 65279).

Fixpoint trimStart (s : jsstring) : jsstring :=
  match s with
  | c :: rest => if is_space c then trimStart rest else s
  | [] => []
  end.

Definition trim (s : jsstring) : jsstring := reverse (trimStart (reverse (trimStart s))).

Module ChatInterface.

(** Where the one invocation of [handleSend] that may be in flight is
    suspended. *)
Inductive Pending :=
  | NoSend
  | AwaitingStream                                      (* at [await sendMessageStream] *)
  | Streaming (botMessageId : jsstring) (fullText : jsstring) (* in [for await] *).

Record t := {
  isOpen : bool;
  messages : list ChatMessage.t;
  input : jsstring;
  isInitializing : bool;
  isTyping : bool;
  chatSessionRef : option Chat;
  pending : Pending
}.

Definition initial : t :=
  {| isOpen := false; messages := []; input := []; isInitializing := true;
     isTyping := false; chatSessionRef := None; pending := NoSend |}.

(** What happens to the component.  Each event is handled in the state that
    the previous one left; [now] is what [Date.now()] returns then. *)
Inductive Event :=
  | InitResolved (chat : Chat)      (* [initializeChat] fulfilled *)
  | InitRejected                    (* [initializeChat] rejected *)
  | SetIsOpen (open : bool)
  | Change (value : jsstring)       (* [onChange] of the input *)
  | Send (now : N)                  (* the button or Enter: [handleSend()] *)
  | StreamOpened (now : N)          (* [sendMessageStream] fulfilled *)
  | StreamRejected (now : N)        (* [sendMessageStream] rejected *)
  | Chunk (text : option jsstring)  (* the stream yields a chunk *)
  | StreamEnd                       (* the stream is done *)
  | StreamFailed (now : N)          (* the stream throws *).

Definition welcome : ChatMessage.t :=
  {| ChatMessage.id := lit "welcome"; ChatMessage.role := model;
     ChatMessage.text := lit "I've reviewed your files and the report. I can help you drill deeper into specific metrics, explain trends, or brainstorm content ideas based on this data. What would you like to know?";
     ChatMessage.isStreaming := None |}.

Definition initError : ChatMessage.t :=
  {| ChatMessage.id := lit "error"; ChatMessage.role := model;
     ChatMessage.text := lit "I'm sorry, I couldn't connect to the analysis engine. Please try refreshing the page.";
     ChatMessage.isStreaming := None |}.

Definition chatError (now : N) : ChatMessage.t :=
  {| ChatMessage.id := decimal now; ChatMessage.role := model;
     ChatMessage.text := lit "I encountered an error processing your request. Please try again.";
     ChatMessage.isStreaming := None |}.

Definition set_messages (f : list ChatMessage.t → list ChatMessage.t) (st : t) : t :=
  {| isOpen := isOpen st; messages := f (messages st); input := input st;
     isInitializing := isInitializing st; isTyping := isTyping st;
     chatSessionRef := chatSessionRef st; pending := pending st |}.

(** The [finally] block: the send is over and [isTyping] is cleared. *)
Definition settle (st : t) : t :=
  {| isOpen := isOpen st; messages := messages st; input := input st;
     isInitializing := isInitializing st; isTyping := false;
     chatSessionRef := chatSessionRef st; pending := NoSend |}.

Definition suspend (p : Pending) (st : t) : t :=
  {| isOpen := isOpen st; messages := messages st; input := input st;
     isInitializing := isInitializing st; isTyping := isTyping st;
     chatSessionRef := chatSessionRef st; pending := p |}.

(** [handleSend] up to its first [await]. *)
Definition handleSend (now : N) (st : t) : t :=
  match trim (input st), chatSessionRef st, isTyping st with
  | ((_ :: _) as text), Some chat, false =>
      let userMessage :=
        {| ChatMessage.id := decimal now; ChatMessage.role := user;
           ChatMessage.text := text; ChatMessage.isStreaming := None |} in
      {| isOpen := isOpen st;
         messages := messages st ++ [userMessage];
         input := [];
         isInitializing := isInitializing st;
         isTyping := true;
         chatSessionRef := Some {| history := history chat ++ [text] |};
         pending := AwaitingStream |}
  | _, _, _ => st
  end.

Definition step (st : t) (e : Event) : t :=
  match e, pending st with
  | InitResolved chat, _ =>
      {| isOpen := isOpen st; messages := [welcome]; input := input st;
         isInitializing := false; isTyping := isTyping st;
         chatSessionRef := Some chat; pending := pending st |}
  | InitRejected, _ =>
      {| isOpen := isOpen st; messages := [initError]; input := input st;
         isInitializing := false; isTyping := isTyping st;
         chatSessionRef := chatSessionRef st; pending := pending st |}
  | SetIsOpen open, _ =>
      {| isOpen := open; messages := messages st; input := input st;
         isInitializing := isInitializing st; isTyping := isTyping st;
         chatSessionRef := chatSessionRef st; pending := pending st |}
  | Change value, _ =>
      (* the input element is disabled while initializing or typing *)
      if isInitializing st || isTyping st then st else
      {| isOpen := isOpen st; messages := messages st; input := value;
         isInitializing := isInitializing st; isTyping := isTyping st;
         chatSessionRef := chatSessionRef st; pending := pending st |}
  | Send now, _ => handleSend now st
  | StreamOpened now, AwaitingStream =>
      let botMessageId := decimal (now + 1) in
      suspend (Streaming botMessageId [])
        (set_messages (λ prev, prev ++
           [{| ChatMessage.id := botMessageId; ChatMessage.role := model;
               ChatMessage.text := []; ChatMessage.isStreaming := Some true |}]) st)
  | StreamRejected now, AwaitingStream =>
      settle (set_messages (λ prev, prev ++ [chatError now]) st)
  | Chunk (Some ((_ :: _) as text)), Streaming botMessageId fullText =>
      let fullText := fullText ++ text in
      suspend (Streaming botMessageId fullText)
        (set_messages (fmap (λ msg,
           if decide (ChatMessage.id msg = botMessageId)
           then {| ChatMessage.id := ChatMessage.id msg;
                   ChatMessage.role := ChatMessage.role msg;
                   ChatMessage.text := fullText;
                   ChatMessage.isStreaming := ChatMessage.isStreaming msg |}
           else msg)) st)
  | StreamEnd, Streaming botMessageId _ =>
      settle (set_messages (fmap (λ msg,
        if decide (ChatMessage.id msg = botMessageId)
        then {| ChatMessage.id := ChatMessage.id msg;
                ChatMessage.role := ChatMessage.role msg;
                ChatMessage.text := ChatMessage.text msg;
                ChatMessage.isStreaming := Some false |}
        else msg)) st)
  | StreamFailed now, Streaming _ _ =>
      settle (set_messages (λ prev, prev ++ [chatError now]) st)
  | _, _ => st
  end.

Definition run : t → list Event → t := foldl step.

Definition reachable (st : t) : Prop := ∃ events, st = run initial events.

(** [msg.isStreaming] is truthy. *)
Definition streaming (msg : ChatMessage.t) : bool :=
  bool_decide (ChatMessage.isStreaming msg = Some true).

Definition streamingMessages (st : t) : list ChatMessage.t :=
  filter (λ msg, streaming msg = true) (messages st).

End ChatInterface.

(** * Vocabulary of the properties, and sample values *)

(** The series entries of a point as the schema has them: a string key and a
    numeric value. *)
Abbreviation entries := (list (jsstring * JSNumber)).

Definition is_entry (s : JSValue) (e : jsstring * JSNumber) : Prop :=
  ∃ fields, s = JObject fields
    ∧ own (lit "key") fields = Some (JString e.1)
    ∧ own (lit "value") fields = Some (JNumber e.2).

(** A point [{name, series: [{key, value}]}], in whatever order its fields
    come and whatever else it carries. *)
Definition is_point (item : JSValue) (name : jsstring) (es : entries) : Prop :=
  ∃ fields series, item = JObject fields
    ∧ own (lit "name") fields = Some (JString name)
    ∧ own (lit "series") fields = Some (JArray series)
    ∧ Forall2 is_entry series es.

(** The value of the last entry with key [k]. *)
Fixpoint last_value (k : jsstring) (es : entries) : option JSNumber :=
  match es with
  | [] => None
  | (k', v) :: es =>
      match last_value k es with
      | Some w => Some w
      | None => if decide (k' = k) then Some v else None
      end
  end.

(** What the loop over the series does to the record, entry by entry. *)
Definition assign (dp : props) (e : jsstring * JSNumber) : props :=
  match own e.1 dp with
  | Some _ => update e.1 (JNumber e.2) dp
  | None => if decide (e.1 = lit "__proto__") then dp else define e.1 (JNumber e.2) dp
  end.

(** The assignment that does nothing: to [__proto__], on a record that has no
    such field of its own. *)
Definition inert (dp : props) (k : jsstring) : Prop :=
  k = lit "__proto__" ∧ own k dp = None.

Global Instance inert_dec dp k : Decision (inert dp k).
Proof. unfold inert. apply _. Defined.

(** What the flat record of a point is, field by field: [x] is the chart's
    [xAxisKey], [name] and [es] the point's label and series entries. *)
Definition flat_record (x name : jsstring) (es : entries) (rec : props) : Prop :=
  is_Some (own x rec)
  ∧ ((∀ e, e ∈ es → e.1 ≠ x) → own x rec = Some (JString name))
  ∧ (∀ k v, k ≠ lit "__proto__" → last_value k es = Some v → own k rec = Some (JNumber v))
  ∧ (∀ k, k ≠ x → k ∉ es.*1 → own k rec = None).

(** Values of the schema's shape, for the examples. *)
Definition entry_value (e : jsstring * JSNumber) : JSValue :=
  JObject [(lit "key", JString e.1); (lit "value", JNumber e.2)].

Definition point_value (p : jsstring * entries) : JSValue :=
  JObject [(lit "name", JString p.1); (lit "series", JArray (entry_value <$> p.2))].

Definition chart_fields (x : jsstring) (data : list JSValue) : props :=
  [(lit "title", JString (lit "Monthly views"));
   (lit "type", JString (lit "bar"));
   (lit "xAxisKey", JString x);
   (lit "dataKeys", JArray [JString (lit "views"); JString (lit "revenue")]);
   (lit "data", JArray data)].

Definition sample_points : list (jsstring * entries) :=
  [(lit "Jan", [(lit "views", number_of_N 10); (lit "revenue", Dec 25 (-1))]);
   (lit "Feb", [(lit "views", number_of_N 12)])].

Definition sample_chart : JSValue :=
  JObject (chart_fields (lit "date") (point_value <$> sample_points)).

(** A point whose one series entry is keyed like the x axis. *)
Definition clash_point : jsstring * entries :=
  (lit "Jan", [(lit "date", number_of_N 7)]).

Definition clash_chart : JSValue :=
  JObject (chart_fields (lit "date") [point_value clash_point]).

Definition flat_sample : list props :=
  [[(lit "date", JString (lit "Jan")); (lit "views", JNumber (number_of_N 10))]].

Definition nested_chart : JSValue :=
  JObject (chart_fields (lit "date")
    [point_value (lit "Jan", [(lit "views", number_of_N 10)])]).

Definition flat_chart : JSValue :=
  JObject (chart_fields (lit "date") (JObject <$> flat_sample)).

Definition reflattened_chart : JSValue :=
  JObject (chart_fields (lit "date") [JObject [(lit "date", JUndefined)]]).

Definition report_fields : props :=
  [(lit "filesDetected", JArray []);
   (lit "combinedStrategicInsights", JString (lit "Shorts drive the growth."));
   (lit "recommendations", JArray [])].

Definition chart_without_data : JSValue :=
  JObject [(lit "title", JString (lit "Monthly views")); (lit "xAxisKey", JString (lit "date"))].

(** A small export: a header and ten rows. *)
Definition views_text : jsstring :=
  lit "video,views\nv01,120\nv02,95\nv03,310\nv04,77\nv05,18\nv06,402\nv07,56\nv08,230\nv09,9\nv10,141\n".

Definition views_file : File.t :=
  {| File.name := lit "views.csv"; File.size := 86; File.readAsText := onload views_text |}.

(** A text of 150001 code units loses its last one to the marker. *)
Definition long_text : jsstring := replicate (N.to_nat 150001) 97.

Definition long_file : File.t :=
  {| File.name := lit "retention.csv"; File.size := 150001;
     File.readAsText := onload long_text |}.

(** The delimiter line of the [i]-th file, counted from 0, and its text. *)
Definition fileBlock (i : nat) (file : FileData.t) : jsstring :=
  lit "--- FILE " ++ decimal (N.of_nat (i + 1)) ++ lit ": " ++ FileData.name file
    ++ lit " ---\n" ++ FileData.content file ++ lit "\n\n".

(** The fields of an analysis that the seed message leaves out. *)
Definition narrative_or_charts : list jsstring :=
  [lit "contentPerformance"; lit "retention"; lit "revenue"; lit "thumbnails"; lit "charts"].

Definition report_one : props :=
  [(lit "filesDetected",
      JArray [JObject [(lit "name", JString (lit "views.csv"));
                       (lit "purpose", JString (lit "Performance"))]]);
   (lit "retention", JString (lit "Viewers leave after 30 seconds."));
   (lit "combinedStrategicInsights", JString (lit "Shorts drive the growth."));
   (lit "recommendations",
      JArray [JObject [(lit "action", JString (lit "Publish more Shorts"));
                       (lit "impact", JString (lit "High"));
                       (lit "description", JString (lit "They bring most new viewers."))]]);
   (lit "charts", JArray [flat_chart])].

Definition report_two : props :=
  [(lit "filesDetected",
      JArray [JObject [(lit "name", JString (lit "views.csv"));
                       (lit "purpose", JString (lit "Performance"))]]);
   (lit "combinedStrategicInsights", JString (lit "Shorts drive the growth."));
   (lit "revenue", JString (lit "Revenue is flat."));
   (lit "recommendations",
      JArray [JObject [(lit "action", JString (lit "Publish more Shorts"));
                       (lit "impact", JString (lit "High"));
                       (lit "description", JString (lit "They bring most new viewers."))]])].

Definition views_data : FileData.t :=
  {| FileData.name := lit "views.csv"; FileData.content := views_text; FileData.size := 86 |}.

Definition csv (name text : string) : File.t :=
  {| File.name := lit name; File.size := N.of_nat (length (lit text));
     File.readAsText := onload (lit text) |}.

Definition unreadable (name : string) : File.t :=
  {| File.name := lit name; File.size := 2048; File.readAsText := onerror |}.

Definition three_files : App.t :=
  App.handleFilesSelected
    [csv "views.csv" "video,views\nv01,120\n"; unreadable "retention.csv";
     csv "revenue.csv" "video,revenue\nv01,3.5\n"]
    App.initial.

Definition selected_names (st : App.t) : list jsstring := File.name <$> App.files st.

Import ChatInterface.

(** [isTyping] is set exactly while an invocation of [handleSend] is
    suspended. *)
Definition in_flight (st : ChatInterface.t) : Prop :=
  pending st ≠ NoSend ↔ isTyping st = true.

(** The streaming messages are the placeholder of the answer that is being
    streamed, if any. *)
Definition tidy (st : ChatInterface.t) : Prop :=
  match pending st with
  | Streaming botMessageId _ =>
      (length (streamingMessages st) ≤ 1)%nat
      ∧ Forall (λ msg, ChatMessage.id msg = botMessageId) (streamingMessages st)
  | _ => streamingMessages st = []
  end.

(** A session in which the stream of the first answer breaks off after one
    chunk and the user then asks again. *)
Definition broken_stream : list Event :=
  [InitResolved {| history := [lit "Here is the context for our session:"] |};
   Change (lit "Which video grew fastest?");
   Send 1000;
   StreamOpened 1400;
   Chunk (Some (lit "It was"));
   StreamFailed 1900;
   Change (lit "Please answer again");
   Send 5000;
   StreamOpened 5300].

(** JSON text for the examples, written with apostrophes where JSON has
    double quotes. *)
Definition json (s : string) : jsstring := (λ c, if c =? 39 then 34 else c) <$> lit s.
Arguments json s%_string.

(** * More of the runtime: searching in strings *)

(** [s.startsWith(p)] *)
Fixpoint startsWith (p s : jsstring) : bool :=
  match p, s with
  | [], _ => true
  | a :: p, b :: s => (a =? b) && startsWith p s
  | _ :: _, [] => false
  end.

(** [s.split(sep)] for a separator that is not empty (the sources split on a
    line feed and on two asterisks): the separators are found from left to
    right and do not overlap.  [skip] counts the code units of the separator
    just found that are still to be passed over, [cur] holds, reversed, the
    piece that is being read. *)
Fixpoint split_from (sep : jsstring) (skip : nat) (cur : jsstring) (s : jsstring)
  : list jsstring :=
  match s with
  | [] => [reverse cur]
  | c :: rest =>
      match skip with
      | S k => split_from sep k cur rest
      | O =>
          if startsWith sep s
          then reverse cur :: split_from sep (length sep - 1) [] rest
          else split_from sep 0 (c :: cur) rest
      end
  end.

Definition split (sep s : jsstring) : list jsstring := split_from sep 0 [] s.

(** [s.replace(pattern, '')] for a string pattern: the first occurrence of
    the pattern is taken out. *)
Fixpoint replace_by_empty (pattern s : jsstring) : jsstring :=
  match s with
  | [] => []
  | c :: rest =>
      if startsWith pattern s then drop (length pattern) s
      else c :: replace_by_empty pattern rest
  end.

(** * MarkdownText

    The renderer of [components/ChatInterface.tsx] and the one of
    [components/AnalysisReport.tsx] have the same code up to the class names
    of the elements, which are left out here. *)

Inductive Inline :=
  | Plain (text : jsstring)     (* a text node *)
  | Strong (text : jsstring)    (* [<strong>] *).

Inductive Block :=
  | H3 (text : jsstring)            (* [<h3>] *)
  | Bullet (text : jsstring)        (* the bullet and the [<span>] after it *)
  | Br                              (* [<br />] *)
  | P (children : list Inline)      (* [<p>] *).

(** The callback of [lines.map]. *)
Definition MarkdownText_line (line : jsstring) : Block :=
  if startsWith (lit "### ") line then H3 (replace_by_empty (lit "### ") line)
  else if startsWith (lit "## ") line then H3 (replace_by_empty (lit "## ") line)
  else if startsWith (lit "- ") line || startsWith (lit "* ") line then Bullet (drop 2 line)
  else if bool_decide (trim line = []) then Br
  else
    let parts := split (lit "**") line in
    if bool_decide (1 < length parts)%nat
    then P (imap (λ i part, if (i mod 2 =? 1)%nat then Strong part else Plain part) parts)
    else P [Plain line].

(** [None] is the [null] returned for an empty content. *)
Definition MarkdownText (content : jsstring) : option (list Block) :=
  match content with
  | [] => None
  | _ => let lines := split (lit "\n") content in Some (MarkdownText_line <$> lines)
  end.

(** * components/AnalysisReport.tsx

    The element tree that the component returns, without the static parts:
    the cards, the sections that depend on the data, the charts.  The names
    that the component reads ([purpose], [title], [type], [dataKeys],
    [impact], [action], [description], the names of the sections) are, like
    those that the service reads, defined by no built-in prototype, so that
    [Get] is what reading them does. *)

(** [v.map((x, index) => ...)] with a callback that makes an element. *)
Definition array_map {A : Type} (v : JSValue) (f : JSValue → nat → Completion A)
  : Completion (list A) :=
  match v with
  | JArray l => mapM (λ ix, f ix.2 ix.1) (imap pair l)
  | _ => Throw TypeError
  end.

(** [v.length > 0] for a truthy [v].  An object with a [length] of its own
    would have it converted to a number, which is outside the model. *)
Definition length_positive (v : JSValue) : Completion bool :=
  match v with
  | JArray l => Normal (bool_decide (l ≠ []))
  | JString s => Normal (bool_decide (s ≠ []))
  | JObject ps => match own (lit "length") ps with
                  | None => Normal false
                  | Some _ => OutOfModel
                  end
  | _ => Normal false
  end.

Module AnalysisReport.

(** The value of [condition && element]: the falsy condition itself, or the
    element. *)
Inductive Conditional (A : Type) :=
  | Skipped (falsy : JSValue)
  | Rendered (element : A).
Arguments Skipped {A} falsy.
Arguments Rendered {A} element.

Record FileCard := { purpose : JSValue; name : JSValue }.

Inductive ChartKind := BarChart | LineChart.

(** One [Bar] or [Line]: its [dataKey] and its colour, [None] when the palette
    has no such entry. *)
Record Series := { dataKey : JSValue; colour : option jsstring }.

Record Chart := {
  title : JSValue;
  kind : ChartKind;
  data : JSValue;
  xAxisKey : JSValue;
  series : list Series
}.

Record RecommendationCard := {
  badge : jsstring;
  impact : JSValue;
  action : JSValue;
  description : JSValue
}.

Record t := {
  filesDetected : list FileCard;
  contentPerformance : Conditional JSValue;
  retention : Conditional JSValue;
  revenue : Conditional JSValue;
  thumbnails : Conditional JSValue;
  charts : Conditional (list Chart);
  combinedStrategicInsights : JSValue;
  recommendations : list RecommendationCard
}.

Definition colors : list jsstring :=
  [lit "#3b82f6"; lit "#10b981"; lit "#f59e0b"; lit "#ef4444"; lit "#8b5cf6"].

(** [data.section && (<section> ... <MarkdownText content={data.section} />)] *)
Definition narrative (data : JSValue) (section : jsstring) : Completion (Conditional JSValue) :=
  content ← Get data section;
  Normal (if truthy content then Rendered content else Skipped content).

Definition fileCard (file : JSValue) (idx : nat) : Completion FileCard :=
  purpose ← Get file (lit "purpose");
  name ← Get file (lit "name");
  Normal {| purpose := purpose; name := name |}.

Definition chart (chart : JSValue) (idx : nat) : Completion Chart :=
  title ← Get chart (lit "title");
  type ← Get chart (lit "type");
  data ← Get chart (lit "data");
  xAxisKey ← Get chart (lit "xAxisKey");
  dataKeys ← Get chart (lit "dataKeys");
  series ← array_map dataKeys (λ key kIdx,
    Normal {| dataKey := key; colour := colors !! (kIdx mod length colors)%nat |});
  Normal {| title := title;
            kind := match type with
                    | JString s => if decide (s = lit "bar") then BarChart else LineChart
                    | _ => LineChart
                    end;
            data := data; xAxisKey := xAxisKey; series := series |}.

Definition recommendationCard (rec : JSValue) (idx : nat) : Completion RecommendationCard :=
  impact ← Get rec (lit "impact");
  action ← Get rec (lit "action");
  description ← Get rec (lit "description");
  Normal {| badge :=
              match impact with
              | JString s =>
                  if decide (s = lit "High") then lit "bg-red-100 text-red-700"
                  else if decide (s = lit "Medium") then lit "bg-amber-100 text-amber-700"
                  else lit "bg-blue-100 text-blue-700"
              | _ => lit "bg-blue-100 text-blue-700"
              end;
            impact := impact; action := action; description := description |}.

Definition AnalysisReport (data : JSValue) : Completion t :=
  files ← Get data (lit "filesDetected");
  filesDetected ← array_map files fileCard;
  contentPerformance ← narrative data (lit "contentPerformance");
  retention ← narrative data (lit "retention");
  revenue ← narrative data (lit "revenue");
  thumbnails ← narrative data (lit "thumbnails");
  charts ← Get data (lit "charts");
  charts ←
    (if truthy charts then
       positive ← length_positive charts;
       if positive : bool then Rendered <$> array_map charts chart
       else Normal (Skipped (JBool false))
     else Normal (Skipped charts));
  combinedStrategicInsights ← Get data (lit "combinedStrategicInsights");
  recs ← Get data (lit "recommendations");
  recommendations ← array_map recs recommendationCard;
  Normal {| filesDetected := filesDetected;
            contentPerformance := contentPerformance;
            retention := retention;
            revenue := revenue;
            thumbnails := thumbnails;
            charts := charts;
            combinedStrategicInsights := combinedStrategicInsights;
            recommendations := recommendations |}.

End AnalysisReport.

(** * Vocabulary of the further properties, and sample values *)

Definition inline_text (child : Inline) : jsstring :=
  match child with Plain text | Strong text => text end.

Definition is_strong (child : Inline) : bool :=
  match child with Strong _ => true | Plain _ => false end.

(** The number of line feeds of a text. *)
Definition line_feeds (s : jsstring) : nat := length (filter (λ c, c = 10) s).

Definition bold_line : jsstring := lit "Views are **up** by 10%, **again".

(** An operation that throws nothing but a [TypeError]. *)
Definition only_TypeError {A : Type} (m : Completion A) : Prop :=
  ∀ e, m = Throw e → e = TypeError.

(** A chart that the flattening step cannot take: [null]; one whose [data] is
    neither absent nor an array; one with a [null] among its data points. *)
Definition malformed_chart (chart : JSValue) : Prop :=
  nullish chart = true
  ∨ (∃ d, Get chart (lit "data") = Normal d ∧ nullish d = false ∧ isArray d = false)
  ∨ (∃ items item, Get chart (lit "data") = Normal (JArray items)
       ∧ item ∈ items ∧ nullish item = true).

(** What holds while a send is in flight, and before there is a session. *)
Definition typing_inv (st : ChatInterface.t) : Prop :=
  (isTyping st = true ↔ pending st ≠ NoSend)
  ∧ (isTyping st = true → input st = [] ∧ is_Some (chatSessionRef st))
  ∧ (chatSessionRef st = None → messages st = [] ∨ messages st = [initError]).

(** The list of messages starts with the message that the initialisation
    put there. *)
Definition greeted (st : ChatInterface.t) : Prop :=
  (messages st = [] ∧ chatSessionRef st = None)
  ∨ ∃ rest, messages st = welcome :: rest ∨ messages st = initError :: rest.

(** The identifier and the role of each message, in order. *)
Definition headers (st : ChatInterface.t) : list (jsstring * Role) :=
  (λ msg, (ChatMessage.id msg, ChatMessage.role msg)) <$> messages st.

(** What the chunks of a stream add up to: a chunk without text, or with an
    empty text, adds nothing. *)
Definition chunks_text (chunks : list (option jsstring)) : jsstring :=
  mjoin (default [] <$> chunks).

(** The messages of a turn: the question, sent at [now], and the answer, whose
    stream opened at [now]. *)
Definition question (now : N) (text : jsstring) : ChatMessage.t :=
  {| ChatMessage.id := decimal now; ChatMessage.role := user;
     ChatMessage.text := text; ChatMessage.isStreaming := None |}.

Definition answer (now : N) (text : jsstring) (isStreaming : bool) : ChatMessage.t :=
  {| ChatMessage.id := decimal (now + 1); ChatMessage.role := model;
     ChatMessage.text := text; ChatMessage.isStreaming := Some isStreaming |}.

(** A state in which a question is typed and can be sent. *)
Definition asking : ChatInterface.t :=
  run initial [InitResolved {| history := [lit "Here is the context for our session:"] |};
               Change (lit "  Which video grew fastest? ")].

(** The message [msg] with another text. *)
Definition with_text (msg : ChatMessage.t) (text : jsstring) : ChatMessage.t :=
  {| ChatMessage.id := ChatMessage.id msg; ChatMessage.role := ChatMessage.role msg;
     ChatMessage.text := text; ChatMessage.isStreaming := ChatMessage.isStreaming msg |}.

(** The state after a turn that started in [st]: the messages of the turn
    are appended, the input is empty, the question is part of the session,
    and no send is in flight. *)
Definition after_turn (st : ChatInterface.t) (chat : Chat) (text : jsstring)
    (turn : list ChatMessage.t) : ChatInterface.t :=
  {| isOpen := isOpen st; messages := messages st ++ turn; input := [];
     isInitializing := isInitializing st; isTyping := false;
     chatSessionRef := Some {| history := history chat ++ [text] |};
     pending := NoSend |}.

Definition four_chunks : list (option jsstring) :=
  [Some (lit "It "); None; Some []; Some (lit "was the tutorial.")].


(** The series that the report draws for the keys of a chart. *)
Definition series_of (keys : list JSValue) : list AnalysisReport.Series :=
  imap (λ kIdx key,
    {| AnalysisReport.dataKey := key;
       AnalysisReport.colour := AnalysisReport.colors !! (kIdx mod 5)%nat |}) keys.

Definition seven_keys : list JSValue :=
  (λ key, JString (lit key)) <$>
    ["views"; "likes"; "shares"; "comments"; "revenue"; "ctr"; "retention"]%string.

(** The report of a result with no file, no narrative, no chart and no
    recommendation. *)
Definition plain_report : AnalysisReport.t :=
  {| AnalysisReport.filesDetected := [];
     AnalysisReport.contentPerformance := AnalysisReport.Skipped JUndefined;
     AnalysisReport.retention := AnalysisReport.Skipped JUndefined;
     AnalysisReport.revenue := AnalysisReport.Skipped JUndefined;
     AnalysisReport.thumbnails := AnalysisReport.Skipped JUndefined;
     AnalysisReport.charts := AnalysisReport.Skipped JUndefined;
     AnalysisReport.combinedStrategicInsights := JString (lit "Shorts drive the growth.");
     AnalysisReport.recommendations := [] |}.

(** * Properties *)

(** ** Own properties *)

Lemma own_update k k' v ps :
  own k' (update k v ps) = if decide (k = k') then (λ _, v) <$> own k ps else own k' ps.
Proof.
  induction ps as [|[k0 v0] ps IH]; simpl.
  - by case_decide.
  - destruct (decide (k0 = k)) as [->|Hk0]; simpl.
    + destruct (decide (k = k')) as [->|?]; simpl; by repeat case_decide.
    + rewrite IH. destruct (decide (k = k')) as [->|?]; by repeat case_decide.
Qed.

Lemma own_insert_index i k k' v ps :
  own k ps = None →
  own k' (insert_index i k v ps) = if decide (k = k') then Some v else own k' ps.
Proof.
  induction ps as [|[k0 v0] ps IH]; simpl; intros Hk.
  - by case_decide.
  - destruct (decide (k0 = k)) as [->|Hk0]; [done|].
    destruct (array_index k0) as [j|]; [destruct (j <? i)|]; simpl;
      rewrite ?IH //; repeat case_decide; congruence.
Qed.

Lemma own_app k ps qs :
  own k (ps ++ qs) = match own k ps with Some v => Some v | None => own k qs end.
Proof.
  induction ps as [|[k0 v0] ps IH]; simpl; [done|]. by case_decide.
Qed.

Lemma own_define k k' v ps :
  own k' (define k v ps) = if decide (k = k') then Some v else own k' ps.
Proof.
  unfold define. destruct (own k ps) as [w|] eqn:Hk.
  - rewrite own_update Hk. by case_decide.
  - destruct (array_index k) as [i|].
    + by apply own_insert_index.
    + rewrite own_app /=. destruct (own k' ps) eqn:Hk'; repeat case_decide; congruence.
Qed.

Lemma define_existing k v ps :
  is_Some (own k ps) → define k v ps = update k v ps.
Proof. intros [w Hw]. by rewrite /define Hw. Qed.

(** ** Flattening one data point *)

Lemma set_property_number k n dp :
  set_property k (JNumber n) dp = Normal (assign dp (k, n)).
Proof.
  unfold set_property, assign; simpl.
  destruct (own k dp); [done|]. by case_decide.
Qed.

Lemma own_assign k dp e :
  own k (assign dp e) =
    if decide (e.1 = k) then (if decide (inert dp k) then None else Some (JNumber e.2))
    else own k dp.
Proof.
  destruct e as [k' v]; unfold assign, inert; simpl.
  destruct (own k' dp) as [w|] eqn:Hk'.
  - rewrite own_update Hk' /=.
    destruct (decide (k' = k)) as [->|?]; [|done].
    case_decide as Hin; [|done]. destruct Hin; congruence.
  - destruct (decide (k' = lit "__proto__")) as [Hp|Hp].
    + destruct (decide (k' = k)) as [->|?]; [|done].
      case_decide as Hin; [done|]. by destruct Hin.
    + rewrite own_define. destruct (decide (k' = k)) as [->|?]; [|done].
      case_decide as Hin; [|done]. by destruct Hin.
Qed.

Lemma inert_assign k dp e : inert (assign dp e) k ↔ inert dp k.
Proof.
  unfold inert. rewrite own_assign.
  destruct (decide (e.1 = k)) as [Hk|?]; [|done].
  subst k. case_decide as Hin; unfold inert in Hin; [tauto|].
  split; [intros [_ [=]]|tauto].
Qed.

Lemma own_foldl_assign k es : ∀ dp,
  own k (foldl assign dp es) =
    match last_value k es with
    | Some v => if decide (inert dp k) then None else Some (JNumber v)
    | None => own k dp
    end.
Proof.
  induction es as [|[k' v] es IH]; intros dp; simpl; [done|].
  rewrite IH. destruct (last_value k es) as [w|].
  - pose proof (inert_assign k dp (k', v)).
    destruct (decide (inert dp k)); case_decide; tauto.
  - rewrite own_assign /=. by destruct (decide (k' = k)).
Qed.

Lemma forEach_entries series es : Forall2 is_entry series es → ∀ dp,
  forEach series (λ dataPoint s,
    key ← Get s (lit "key");
    value ← Get s (lit "value");
    k ← ToPropertyKey key;
    set_property k value dataPoint) dp
  = Normal (foldl assign dp es).
Proof.
  induction 1 as [|s [k v] series es (fields & -> & Hkey & Hval) _ IH]; intros dp; [done|].
  simpl in *. rewrite Hkey Hval /= set_property_number /=. apply IH.
Qed.

(** The record that [dataPoint] makes of a point of the schema's shape. *)
Lemma dataPoint_point chart x item name es :
  Get chart (lit "xAxisKey") = Normal (JString x) →
  is_point item name es →
  dataPoint chart item = Normal (JObject (foldl assign [(x, JString name)] es)).
Proof.
  intros Hx (fields & series & -> & Hname & Hseries & Hes).
  unfold dataPoint. rewrite Hx /= Hname Hseries /=.
  by rewrite (forEach_entries _ _ Hes).
Qed.

Lemma last_value_None k es : k ∉ es.*1 → last_value k es = None.
Proof.
  induction es as [|[k' v] es IH]; simpl; [done|].
  rewrite not_elem_of_cons. intros [? ?]. rewrite IH //. by case_decide.
Qed.

Lemma mapM_Normal {A B : Type} (f : A → Completion B) l k :
  Forall2 (λ x y, f x = Normal y) l k → mapM f l = Normal k.
Proof.
  induction 1 as [|x y l k Hxy _ IH]; [done|].
  change (mapM f (x :: l)) with (y ← f x; k ← mapM f l; mret (y :: k)).
  by rewrite Hxy /= IH.
Qed.

Lemma flat_record_assign x name es :
  flat_record x name es (foldl assign [(x, JString name)] es).
Proof.
  assert (Hx : ¬ inert [(x, JString name)] x).
  { intros [_ Hown]. simpl in Hown. by case_decide. }
  repeat split.
  - rewrite own_foldl_assign. destruct (last_value x es).
    + by case_decide.
    + simpl. by case_decide.
  - intros Hfresh. rewrite own_foldl_assign last_value_None.
    + simpl. by case_decide.
    + rewrite list_elem_of_fmap. intros (e & -> & He). by eapply Hfresh.
  - intros k v Hk Hv. rewrite own_foldl_assign Hv.
    case_decide as Hin; [|done]. by destruct Hin.
  - intros k Hk Hfresh. rewrite own_foldl_assign last_value_None //.
    simpl. by case_decide.
Qed.

Lemma flattenChart_array fields items recs :
  own (lit "data") fields = Some (JArray items) →
  Forall2 (λ item rec, dataPoint (JObject fields) item = Normal rec) items recs →
  flattenChart (JObject fields)
  = Normal (JObject (define (lit "data") (JArray recs) fields)).
Proof.
  intros Hdata Hrecs. unfold flattenChart, flatData. simpl. rewrite Hdata. simpl.
  by rewrite (mapM_Normal _ _ _ Hrecs).
Qed.

(** C3, as the code has it.  For a chart whose [xAxisKey] is a string and
    whose data points have the nested shape [{name, series: [{key, value}]}]
    with string keys and numeric values, normalisation replaces [data] by one
    flat record per point, in order, and leaves the other fields of the chart
    alone.  In each record the field named by [xAxisKey] is present; it holds
    the point's name unless a series entry of the point uses that very key;
    every series key other than [__proto__] is a field that holds the numeric
    value of the last entry with that key; a key other than [xAxisKey] with no
    entry for the point is absent. *)
Theorem flattenChart_flat_records fields x items (points : list (jsstring * entries)) :
  own (lit "xAxisKey") fields = Some (JString x) →
  own (lit "data") fields = Some (JArray items) →
  Forall2 (λ item p, is_point item p.1 p.2) items points →
  ∃ flat recs,
    flattenChart (JObject fields) = Normal (JObject flat)
    ∧ own (lit "data") flat = Some (JArray (JObject <$> recs))
    ∧ (∀ k, k ≠ lit "data" → own k flat = own k fields)
    ∧ Forall2 (λ p rec, flat_record x p.1 p.2 rec) points recs.
Proof.
  intros Hx Hdata Hpoints.
  exists (define (lit "data")
            (JArray (JObject <$> ((λ p, foldl assign [(x, JString p.1)] p.2) <$> points)))
            fields),
         ((λ p, foldl assign [(x, JString p.1)] p.2) <$> points).
  split; [|split; [|split]].
  - apply (flattenChart_array _ items); [done|].
    rewrite -list_fmap_compose. apply Forall2_fmap_r.
    eapply Forall2_impl; [exact Hpoints|].
    intros item p Hp. simpl. eapply dataPoint_point; [|done]. simpl. by rewrite Hx.
  - rewrite own_define. by case_decide.
  - intros k Hk. rewrite own_define. by case_decide.
  - apply Forall2_fmap_r, Forall_Forall2_diag, Forall_forall.
    intros p _. apply flat_record_assign.
Qed.

Lemma is_point_point_value p : is_point (point_value p) p.1 p.2.
Proof.
  exists [(lit "name", JString p.1); (lit "series", JArray (entry_value <$> p.2))],
         (entry_value <$> p.2).
  repeat split. apply Forall2_fmap_l, Forall_Forall2_diag, Forall_forall.
  intros e _. by eexists.
Qed.

Lemma flattenChart_flat_records_witness :
  ∃ flat recs,
    flattenChart sample_chart = Normal (JObject flat)
    ∧ own (lit "data") flat = Some (JArray (JObject <$> recs))
    ∧ (∀ k, k ≠ lit "data" → own k flat = own k (chart_fields (lit "date") (point_value <$> sample_points)))
    ∧ Forall2 (λ p rec, flat_record (lit "date") p.1 p.2 rec) sample_points recs.
Proof.
  apply (flattenChart_flat_records _ (lit "date") (point_value <$> sample_points)).
  - reflexivity.
  - reflexivity.
  - apply Forall2_fmap_l, Forall_Forall2_diag, Forall_forall.
    intros p _. apply is_point_point_value.
Defined.

Example flattenChart_sample :
  flattenChart sample_chart
  = Normal (JObject (chart_fields (lit "date")
      [JObject [(lit "date", JString (lit "Jan"));
                (lit "views", JNumber (number_of_N 10));
                (lit "revenue", JNumber (Dec 25 (-1)))];
       JObject [(lit "date", JString (lit "Feb"));
                (lit "views", JNumber (number_of_N 12))]])).
Proof. vm_compute. reflexivity. Qed.

(** C3 as stated fails: here the point is named [Jan], its one series entry is
    keyed [date] like the x axis, and the flat record's [date] field holds the
    entry's value 7, not the name. *)
Lemma dataPoint_label_overwritten :
  is_point (point_value clash_point) (lit "Jan") [(lit "date", number_of_N 7)]
  ∧ Get clash_chart (lit "xAxisKey") = Normal (JString (lit "date"))
  ∧ dataPoint clash_chart (point_value clash_point)
    = Normal (JObject [(lit "date", JNumber (number_of_N 7))])
  ∧ own (lit "date") [(lit "date", JNumber (number_of_N 7))] ≠ Some (JString (lit "Jan")).
Proof.
  split; [apply (is_point_point_value clash_point)|].
  split; [reflexivity|]. split; [vm_compute; reflexivity|].
  vm_compute. discriminate.
Qed.

(** ** Flattening twice *)

(** C4, as the code has it.  On a chart that is already flat, one whose data
    records have no [series] field, the transform is not the identity: it
    rebuilds every record from the record's [name] field alone, so that the
    new record has the single field [xAxisKey], holding that [name] field
    ([undefined] when the record has none), and the other fields are lost. *)
Theorem flattenChart_of_flat fields x (recs : list props) :
  own (lit "xAxisKey") fields = Some (JString x) →
  own (lit "data") fields = Some (JArray (JObject <$> recs)) →
  Forall (λ rec, own (lit "series") rec = None) recs →
  flattenChart (JObject fields)
  = Normal (JObject (define (lit "data")
      (JArray ((λ rec, JObject [(x, default JUndefined (own (lit "name") rec))]) <$> recs))
      fields)).
Proof.
  intros Hx Hdata Hflat. apply (flattenChart_array _ (JObject <$> recs)); [done|].
  apply Forall2_fmap, Forall_Forall2_diag. eapply Forall_impl; [exact Hflat|].
  intros rec Hseries. unfold dataPoint. simpl. by rewrite Hx /= Hseries.
Qed.

Lemma flattenChart_of_flat_witness :
  flattenChart (JObject (chart_fields (lit "date") (JObject <$> flat_sample)))
  = Normal (JObject (chart_fields (lit "date") [JObject [(lit "date", JUndefined)]])).
Proof.
  apply (flattenChart_of_flat (chart_fields (lit "date") (JObject <$> flat_sample))
           (lit "date") flat_sample).
  - reflexivity.
  - reflexivity.
  - repeat constructor.
Defined.

(** C4 as stated fails: the first pass gives the record [{date: Jan, views: 10}],
    the second pass turns it into [{date: undefined}]. *)
Lemma flattenChart_not_idempotent :
  flattenChart nested_chart = Normal flat_chart
  ∧ flattenChart flat_chart = Normal reflattened_chart
  ∧ flat_chart ≠ reflattened_chart.
Proof. repeat split; [vm_compute; reflexivity..|vm_compute; discriminate]. Qed.

(** The same on a whole response. *)
Example transformCharts_twice :
  transformCharts (JObject [(lit "charts", JArray [nested_chart])])
  = Normal (JObject [(lit "charts", JArray [flat_chart])])
  ∧ transformCharts (JObject [(lit "charts", JArray [flat_chart])])
    = Normal (JObject [(lit "charts", JArray [reflattened_chart])]).
Proof. split; vm_compute; reflexivity. Qed.

(** ** Absent charts and absent data *)

Lemma transformCharts_unchanged result :
  nullish result = false →
  (∀ l, Get result (lit "charts") ≠ Normal (JArray l)) →
  transformCharts result = Normal result.
Proof.
  intros Hnull Hcharts. unfold transformCharts.
  destruct (Get result (lit "charts")) as [charts| |] eqn:HGet; simpl.
  - destruct charts; try by rewrite ?andb_false_r.
    by destruct (Hcharts elements).
  - by destruct result.
  - by destruct result.
Qed.




(** A response whose second chart has no [data]: no error, and the chart gets
    an empty [data]. *)
Example transformCharts_chart_without_data :
  transformCharts (JObject [(lit "charts", JArray [nested_chart; chart_without_data])])
  = Normal (JObject [(lit "charts", JArray
      [flat_chart;
       JObject [(lit "title", JString (lit "Monthly views"));
                (lit "xAxisKey", JString (lit "date"));
                (lit "data", JArray [])]])]).
Proof. vm_compute. reflexivity. Qed.

(** [null] is the one parsed value on which reading [charts] throws. *)
Example transformCharts_null : transformCharts JNull = Throw TypeError.
Proof. reflexivity. Qed.

(** ** The response of the model *)

Lemma JSON_parse_empty : JSON_parse [] = None.
Proof. reflexivity. Qed.

Lemma transformCharts_other_fields parsed result k :
  transformCharts parsed = Normal result →
  k ≠ lit "charts" →
  Get result k = Get parsed k.
Proof.
  unfold transformCharts. intros Hrun Hk.
  destruct (Get parsed (lit "charts")) as [charts| |] eqn:HGet; simpl in Hrun; [|done..].
  destruct (truthy charts && isArray charts) eqn:Harr; [|congruence].
  destruct (call_map charts flattenChart) as [charts'| |]; simpl in Hrun; [|done..].
  destruct parsed as [| | | | | |fields]; try congruence.
  unfold set_property in Hrun. simpl in HGet.
  destruct (own (lit "charts") fields) as [old|] eqn:Hold.
  - simpl in Hrun. injection Hrun as <-. simpl.
    rewrite own_update. by case_decide.
  - injection HGet as <-. done.
Qed.

(** The charts of a response are flattened one by one, in place. *)
Lemma transformCharts_charts fields charts charts' :
  own (lit "charts") fields = Some (JArray charts) →
  Forall2 (λ chart flat, flattenChart chart = Normal flat) charts charts' →
  transformCharts (JObject fields)
  = Normal (JObject (update (lit "charts") (JArray charts') fields)).
Proof.
  intros Hcharts Hflat. unfold transformCharts. simpl. rewrite Hcharts. simpl.
  rewrite (mapM_Normal _ _ _ Hflat). simpl. unfold set_property. by rewrite Hcharts.
Qed.

(** C1, as the code has it.  When the model answers with the text [text]: an
    empty text makes [analyzeFiles] fail with the error "No response from
    Gemini"; a text that is not valid JSON makes it fail with the parser's
    syntax error; a text that parses is not checked for the required fields:
    an object without [charts] is returned as it was parsed, whichever
    fields it lacks, and whenever a result is returned, every field other
    than [charts] is read from it as from the parsed value, so that a missing
    field stays missing and none is filled in. *)
Theorem analyzeFiles_response API_KEY generateContent files text :
  missing API_KEY = false →
  generateContent (promptText files) = Normal (Some text) →
  (text = [] →
     analyzeFiles API_KEY generateContent files
     = Throw (Error (lit "No response from Gemini")))
  ∧ (text ≠ [] → JSON_parse text = None →
     analyzeFiles API_KEY generateContent files = Throw SyntaxError)
  ∧ (∀ fields, JSON_parse text = Some (JObject fields) →
       own (lit "charts") fields = None →
       analyzeFiles API_KEY generateContent files = Normal (JObject fields))
  ∧ (∀ parsed result, JSON_parse text = Some parsed →
       analyzeFiles API_KEY generateContent files = Normal result →
       ∀ k, k ≠ lit "charts" → Get result k = Get parsed k).
Proof.
  intros Hkey Hgen. unfold analyzeFiles. rewrite Hkey Hgen /=.
  split; [by intros ->|]. split; [|split].
  - intros Htext Hparse. destruct text; [done|]. by rewrite Hparse.
  - intros fields Hparse Hcharts. destruct text; [done|]. rewrite Hparse.
    apply transformCharts_unchanged; [done|]. simpl. by rewrite Hcharts.
  - intros parsed result Hparse. destruct text; [done|]. rewrite Hparse.
    intros Hrun k Hk. by eapply transformCharts_other_fields.
Qed.

Lemma analyzeFiles_response_witness :
  JSON_parse (lit "{}") = Some (JObject [])
  ∧ analyzeFiles (Some (lit "secret")) (λ _, Normal (Some (lit "{}"))) [views_data]
    = Normal (JObject [])
  ∧ JSON_parse (lit "{oops") = None
  ∧ analyzeFiles (Some (lit "secret")) (λ _, Normal (Some (lit "{oops"))) [views_data]
    = Throw SyntaxError.
Proof.
  split; [reflexivity|]. split; [|split; [reflexivity|]].
  - refine (proj1 (proj2 (proj2 (analyzeFiles_response (Some (lit "secret"))
              (λ _, Normal (Some (lit "{}"))) [views_data] (lit "{}") _ _))) [] _ _);
      reflexivity.
  - refine (proj1 (proj2 (analyzeFiles_response (Some (lit "secret"))
              (λ _, Normal (Some (lit "{oops"))) [views_data] (lit "{oops") _ _)) _ _);
      [reflexivity..|discriminate|reflexivity].
Defined.

(** A response with one chart, from the text to the flat records. *)
Example analyzeFiles_with_chart :
  analyzeFiles (Some (lit "secret"))
    (λ _, Normal (Some (json
       "{'filesDetected':[],'combinedStrategicInsights':'ok','recommendations':[],'charts':[{'title':'Views','type':'line','xAxisKey':'date','dataKeys':['views'],'data':[{'name':'Jan','series':[{'key':'views','value':1.5e3}]}]}]}")))
    []
  = Normal (JObject
      [(lit "filesDetected", JArray []);
       (lit "combinedStrategicInsights", JString (lit "ok"));
       (lit "recommendations", JArray []);
       (lit "charts", JArray
          [JObject
             [(lit "title", JString (lit "Views"));
              (lit "type", JString (lit "line"));
              (lit "xAxisKey", JString (lit "date"));
              (lit "dataKeys", JArray [JString (lit "views")]);
              (lit "data", JArray
                 [JObject [(lit "date", JString (lit "Jan"));
                           (lit "views", JNumber (number_of_N 1500))]])]])]).
Proof. vm_compute. reflexivity. Qed.

(** The failures that come before the response is looked at. *)
Example analyzeFiles_failures :
  analyzeFiles None (λ _, Normal (Some (lit "{}"))) []
  = Throw (Error (lit "API Key is missing. Please set the API_KEY environment variable."))
  ∧ analyzeFiles (Some (lit "secret")) (λ _, Throw (Rejection (Some (lit "quota")))) []
    = Throw (Rejection (Some (lit "quota")))
  ∧ analyzeFiles (Some (lit "secret")) (λ _, Normal None) []
    = Throw (Error (lit "No response from Gemini"))
  ∧ analyzeFiles (Some (lit "secret")) (λ _, Normal (Some (lit "null"))) []
    = Throw TypeError.
Proof. repeat split. Qed.

(** C1 as stated fails: the response [{}] is valid JSON without any of the
    required fields, and [analyzeFiles] returns it. *)
Lemma analyzeFiles_returns_partial_result :
  JSON_parse (lit "{}") = Some (JObject [])
  ∧ analyzeFiles (Some (lit "secret")) (λ _, Normal (Some (lit "{}"))) [views_data]
    = Normal (JObject [])
  ∧ own (lit "filesDetected") [] = None
  ∧ own (lit "combinedStrategicInsights") [] = None
  ∧ own (lit "recommendations") [] = None.
Proof. repeat split. Qed.

(** ** File ingestion *)

Lemma length_TRUNCATED : length TRUNCATED = 15%nat.
Proof. reflexivity. Qed.

(** C2.  When the reader loads the text [text] of a file, [readFileAsText]
    fulfils with a record that has the name and the size of the file handle;
    its content is [text] itself when [text] has at most 150000 code units,
    and otherwise the first 150000 code units of [text] followed by the
    truncation marker, once: 150015 code units in all. *)
Theorem readFileAsText_truncates (file : File.t) (text : jsstring) :
  File.readAsText file = onload text →
  ∃ data,
    readFileAsText file = Normal data
    ∧ FileData.name data = File.name file
    ∧ FileData.size data = File.size file
    ∧ (N.of_nat (length text) ≤ 150000 → FileData.content data = text)
    ∧ (150000 < N.of_nat (length text) →
         FileData.content data = take (N.to_nat 150000) text ++ TRUNCATED
         ∧ N.of_nat (length (take (N.to_nat 150000) text)) = 150000
         ∧ N.of_nat (length (FileData.content data)) = 150015).
Proof.
  intros Hread. unfold readFileAsText. rewrite Hread.
  eexists. split; [reflexivity|]. cbn [FileData.name FileData.size FileData.content].
  split; [done|]. split; [done|]. unfold MAX_CHARS, substring_to.
  destruct (150000 <? N.of_nat (length text)) eqn:Hlen.
  - apply N.ltb_lt in Hlen. split; [lia|]. intros _. split; [done|].
    rewrite length_app length_take length_TRUNCATED. lia.
  - apply N.ltb_ge in Hlen. split; [done|]. lia.
Qed.

Lemma readFileAsText_truncates_witness :
  ∃ data,
    readFileAsText views_file = Normal data
    ∧ FileData.name data = lit "views.csv"
    ∧ FileData.size data = 86
    ∧ (N.of_nat (length views_text) ≤ 150000 → FileData.content data = views_text)
    ∧ (150000 < N.of_nat (length views_text) →
         FileData.content data = take (N.to_nat 150000) views_text ++ TRUNCATED
         ∧ N.of_nat (length (take (N.to_nat 150000) views_text)) = 150000
         ∧ N.of_nat (length (FileData.content data)) = 150015).
Proof. apply (readFileAsText_truncates views_file views_text). reflexivity. Defined.

Example readFileAsText_long :
  FileData.content <$> readFileAsText long_file
  = Normal (replicate (N.to_nat 150000) 97 ++ lit "\n...[TRUNCATED]").
Proof.
  unfold readFileAsText, long_file, long_text, substring_to, MAX_CHARS.
  cbn [File.readAsText File.name File.size].
  rewrite length_replicate N2Nat.id take_replicate.
  replace (N.to_nat 150000 `min` N.to_nat 150001)%nat with (N.to_nat 150000) by lia.
  reflexivity.
Qed.

Example readFileAsText_unreadable :
  readFileAsText {| File.name := lit "views.csv"; File.size := 3; File.readAsText := onerror |}
  = Throw ReadFailure.
Proof. reflexivity. Qed.

(** ** Prompt assembly *)

Lemma forEach_from_blocks (block : nat → FileData.t → jsstring) files : ∀ i acc,
  forEach_from i files (λ acc file index, acc ++ block index file) acc
  = acc ++ mjoin (imap (λ j, block (i + j)%nat) files).
Proof.
  induction files as [|file files IH]; intros i acc; simpl.
  - by rewrite app_nil_r.
  - rewrite IH -app_assoc Nat.add_0_r. do 3 f_equal.
    apply imap_ext. intros j f _. simpl. f_equal. lia.
Qed.

Lemma forEach_from_ext {A St : Type} (f g : St → A → nat → St) l :
  (∀ s x i, f s x i = g s x i) → ∀ i s, forEach_from i l f s = forEach_from i l g s.
Proof.
  intros Hfg. induction l as [|x l IH]; intros i s; simpl; [done|].
  by rewrite Hfg IH.
Qed.

Lemma promptText_closed_form files :
  promptText files
  = lit "Analyze the following CSV files:\n\n" ++ mjoin (imap fileBlock files)
    ++ lit "\nProvide a detailed analysis following the ConTima structure.".
Proof.
  unfold promptText, forEach_indexed.
  rewrite (forEach_from_ext _ (λ acc file index, acc ++ fileBlock index file)).
  - by rewrite forEach_from_blocks -app_assoc.
  - intros acc file index. unfold fileBlock. by rewrite -!app_assoc.
Qed.

Lemma readFileAsText_short (file : File.t) text :
  File.readAsText file = onload text →
  N.of_nat (length text) ≤ 150000 →
  readFileAsText file
  = Normal {| FileData.name := File.name file; FileData.content := text;
              FileData.size := File.size file |}.
Proof.
  intros Hread Hlen. unfold readFileAsText, MAX_CHARS. rewrite Hread.
  by apply N.ltb_ge in Hlen as ->.
Qed.

(** C8.  The prompt is one text: an opening line, then for each file, in the
    order given and numbered from 1, the line [--- FILE i: name ---]
    immediately followed by the content of the file record and an empty line,
    then the closing directive.  For the single file [views.csv], whose text
    is short enough to be read in full, the line [--- FILE 1: views.csv ---]
    is immediately followed by the whole text. *)
Theorem promptText_blocks :
  (∀ files,
     promptText files
     = lit "Analyze the following CSV files:\n\n"
       ++ mjoin (imap (λ i file,
            lit "--- FILE " ++ decimal (N.of_nat (i + 1)) ++ lit ": " ++ FileData.name file
            ++ lit " ---\n" ++ FileData.content file ++ lit "\n\n") files)
       ++ lit "\nProvide a detailed analysis following the ConTima structure.")
  ∧ (∀ (file : File.t) text,
       File.name file = lit "views.csv" →
       File.readAsText file = onload text →
       N.of_nat (length text) ≤ 150000 →
       ∃ data, readFileAsText file = Normal data
         ∧ promptText [data]
           = lit "Analyze the following CSV files:\n\n"
             ++ lit "--- FILE 1: views.csv ---\n" ++ text ++ lit "\n\n"
             ++ lit "\nProvide a detailed analysis following the ConTima structure.").
Proof.
  split; [exact promptText_closed_form|].
  intros file text Hname Hread Hlen. eexists. split; [by apply readFileAsText_short|].
  replace (lit "--- FILE 1: views.csv ---\n")
    with (lit "--- FILE " ++ decimal (N.of_nat (0 + 1)) ++ lit ": " ++ lit "views.csv"
          ++ lit " ---\n") by (vm_compute; reflexivity).
  unfold promptText, forEach_indexed.
  cbn [forEach_from FileData.name FileData.content].
  rewrite Hname. rewrite <- !app_assoc. reflexivity.
Qed.

Lemma promptText_blocks_witness :
  ∃ data, readFileAsText views_file = Normal data
    ∧ promptText [data]
      = lit "Analyze the following CSV files:\n\n"
        ++ lit "--- FILE 1: views.csv ---\n" ++ views_text ++ lit "\n\n"
        ++ lit "\nProvide a detailed analysis following the ConTima structure.".
Proof.
  apply (proj2 promptText_blocks views_file views_text).
  - reflexivity.
  - reflexivity.
  - vm_compute. discriminate.
Defined.

Example promptText_two_files :
  promptText [{| FileData.name := lit "a.csv"; FileData.content := lit "x,y"; FileData.size := 3 |};
              {| FileData.name := lit "b.csv"; FileData.content := lit "u"; FileData.size := 1 |}]
  = lit "Analyze the following CSV files:\n\n--- FILE 1: a.csv ---\nx,y\n\n--- FILE 2: b.csv ---\nu\n\n\nProvide a detailed analysis following the ConTima structure.".
Proof. vm_compute. reflexivity. Qed.

(** ** The chat seed *)

Lemma summary_fields_kept :
  (lit "combinedStrategicInsights" ∉ narrative_or_charts)
  ∧ (lit "recommendations" ∉ narrative_or_charts)
  ∧ (lit "filesDetected" ∉ narrative_or_charts).
Proof. repeat split; apply (bool_decide_unpack _); vm_compute; exact I. Qed.

(** C9.  Two analysis results that differ at most in the narrative sections
    ([contentPerformance], [retention], [revenue], [thumbnails]) and in
    [charts] give, for the same files, the same context message, and
    [initializeChat] behaves the same on both. *)
Theorem initializeChat_ignores_narrative API_KEY sendMessage files (a1 a2 : props) :
  (∀ k, k ∉ narrative_or_charts → own k a1 = own k a2) →
  contextMsg files (JObject a1) = contextMsg files (JObject a2)
  ∧ initializeChat API_KEY sendMessage files (JObject a1)
    = initializeChat API_KEY sendMessage files (JObject a2).
Proof.
  intros Hsame. destruct summary_fields_kept as (Hi & Hr & Hf).
  assert (contextMsg files (JObject a1) = contextMsg files (JObject a2)) as Hmsg.
  { unfold contextMsg. simpl. by rewrite (Hsame _ Hi) (Hsame _ Hr) (Hsame _ Hf). }
  split; [done|]. unfold initializeChat. by rewrite Hmsg.
Qed.

Lemma initializeChat_ignores_narrative_witness :
  contextMsg [views_data] (JObject report_one) = contextMsg [views_data] (JObject report_two)
  ∧ initializeChat (Some (lit "secret")) (λ _, Normal ()) [views_data] (JObject report_one)
    = initializeChat (Some (lit "secret")) (λ _, Normal ()) [views_data] (JObject report_two).
Proof.
  apply (initializeChat_ignores_narrative (Some (lit "secret")) (λ _, Normal ())
           [views_data] report_one report_two).
  intros k Hk. unfold narrative_or_charts in Hk.
  rewrite !not_elem_of_cons in Hk. destruct Hk as (H1 & H2 & H3 & H4 & H5 & _).
  unfold report_one, report_two. simpl. repeat case_decide; congruence.
Defined.

(** ** Batch ingestion *)

Lemma readFileAsText_outcome (file : File.t) :
  (∃ data, readFileAsText file = Normal data) ∨ readFileAsText file = Throw ReadFailure.
Proof. unfold readFileAsText. destruct (File.readAsText file); eauto. Qed.

Lemma Promise_all_unreadable (files : list File.t) :
  (∃ file, file ∈ files ∧ File.readAsText file = onerror) →
  Promise_all (readFileAsText <$> files) = Throw ReadFailure.
Proof.
  intros (bad & Hin & Hbad).
  induction files as [|file files IH]; [by apply elem_of_nil in Hin|].
  simpl. destruct (readFileAsText_outcome file) as [[data Hdata]| ->]; [|done].
  rewrite Hdata. apply elem_of_cons in Hin as [->|Hin].
  - unfold readFileAsText in Hdata. by rewrite Hbad in Hdata.
  - simpl. by rewrite IH.
Qed.

(** C5.  When the read of at least one selected file fails, the wait for all
    the reads rejects, with the one failure of the reader; [handleAnalyze]
    ends in the [ERROR] state, with the analysis data and the list of file
    records as they were, and whatever the model would have answered: it is
    not asked.  The witness is the batch of three files whose second cannot be
    read. *)
Theorem handleAnalyze_fails_fast API_KEY generateContent (st : App.t) :
  (∃ file, file ∈ App.files st ∧ File.readAsText file = onerror) →
  Promise_all (readFileAsText <$> App.files st) = Throw ReadFailure
  ∧ ∃ st', App.handleAnalyze API_KEY generateContent st = Some st'
      ∧ App.appState st' = ERROR
      ∧ App.analysisData st' = App.analysisData st
      ∧ App.fileDataList st' = App.fileDataList st
      ∧ ∀ API_KEY' generateContent',
          App.handleAnalyze API_KEY' generateContent' st = Some st'.
Proof.
  intros Hbad. pose proof (Promise_all_unreadable _ Hbad) as Hall.
  split; [done|]. unfold App.handleAnalyze.
  destruct Hbad as (bad & Hin & _).
  destruct (decide (length (App.files st) = 0%nat)) as [Hnil|_].
  { apply nil_length_inv in Hnil. rewrite Hnil in Hin. by apply elem_of_nil in Hin. }
  cbn [App.files]. rewrite Hall. eexists. repeat split.
Qed.

Lemma handleAnalyze_fails_fast_witness :
  Promise_all (readFileAsText <$> App.files three_files) = Throw ReadFailure
  ∧ ∃ st', App.handleAnalyze (Some (lit "secret")) (λ _, Normal (Some (lit "{}"))) three_files
           = Some st'
      ∧ App.appState st' = ERROR
      ∧ App.analysisData st' = App.analysisData three_files
      ∧ App.fileDataList st' = App.fileDataList three_files
      ∧ ∀ API_KEY' generateContent',
          App.handleAnalyze API_KEY' generateContent' three_files = Some st'.
Proof.
  apply (handleAnalyze_fails_fast (Some (lit "secret")) (λ _, Normal (Some (lit "{}")))
           three_files).
  exists (unreadable "retention.csv"). split; [|reflexivity].
  vm_compute. apply list_elem_of_further, list_elem_of_here.
Defined.

Example handleAnalyze_three_files :
  length (App.files three_files) = 3%nat
  ∧ App.analysisData three_files = None
  ∧ App.handleAnalyze (Some (lit "secret")) (λ _, Normal (Some (lit "{}"))) three_files
    = Some {| App.files := App.files three_files; App.fileDataList := [];
              App.appState := ERROR; App.analysisData := None;
              App.errorMsg :=
                Some (Literal (lit "An unexpected error occurred during analysis.")) |}.
Proof. repeat split; vm_compute; reflexivity. Qed.

(** ** Selecting files *)

Lemma handleFilesSelected_names newFiles st :
  selected_names (App.handleFilesSelected newFiles st)
  = selected_names st
    ++ filter (λ name, name ∉ selected_names st) (File.name <$> newFiles).
Proof.
  unfold selected_names, App.handleFilesSelected. cbn [App.files].
  rewrite fmap_app. f_equal.
  induction newFiles as [|file newFiles IH]; [done|].
  rewrite fmap_cons !filter_cons.
  destruct (decide (File.name file ∉ _)) as [Hnew|Hold];
    rewrite elem_of_list_to_set in Hnew || rewrite elem_of_list_to_set in Hold;
    case_decide; try done; by rewrite fmap_cons IH.
Qed.

(** A file whose name is already selected is not added: if it is among the
    selected files afterwards, it was among them before. *)
Lemma handleFilesSelected_drops_known newFiles st (file : File.t) :
  File.name file ∈ selected_names st →
  file ∈ App.files (App.handleFilesSelected newFiles st) →
  file ∈ App.files st.
Proof.
  intros Hknown. unfold App.handleFilesSelected. cbn [App.files].
  rewrite elem_of_app list_elem_of_filter elem_of_list_to_set.
  intros [?|[Hnew _]]; [done|]. by destruct Hnew.
Qed.

(** Names stay distinct as long as no selection brings the same name twice. *)
Lemma handleFilesSelected_NoDup newFiles st :
  NoDup (selected_names st) → NoDup (File.name <$> newFiles) →
  NoDup (selected_names (App.handleFilesSelected newFiles st)).
Proof.
  intros Hst Hnew. rewrite handleFilesSelected_names. apply NoDup_app.
  split; [done|]. split; [|by apply NoDup_filter].
  intros name Hin. rewrite list_elem_of_filter. tauto.
Qed.

(** The example of the specification: [a.csv, b.csv], then [a.csv, c.csv]. *)
Example handleFilesSelected_a_b_c :
  selected_names
    (App.handleFilesSelected [csv "a.csv" "x,1"; csv "c.csv" "z,3"]
       (App.handleFilesSelected [csv "a.csv" "x,1"; csv "b.csv" "y,2"] App.initial))
  = [lit "a.csv"; lit "b.csv"; lit "c.csv"].
Proof. vm_compute. reflexivity. Qed.

(** C7 on the code: one selection that brings two files of the same name,
    taken from two folders, keeps both, so that the selected names are not
    unique. *)
Theorem handleFilesSelected_keeps_batch_duplicates :
  selected_names
    (App.handleFilesSelected [csv "a.csv" "x,1"; csv "a.csv" "other,2"] App.initial)
  = [lit "a.csv"; lit "a.csv"]
  ∧ ¬ NoDup (selected_names
       (App.handleFilesSelected [csv "a.csv" "x,1"; csv "a.csv" "other,2"] App.initial)).
Proof.
  assert (selected_names
            (App.handleFilesSelected [csv "a.csv" "x,1"; csv "a.csv" "other,2"] App.initial)
          = [lit "a.csv"; lit "a.csv"]) as Hnames by (vm_compute; reflexivity).
  split; [done|]. rewrite Hnames. intros Hdup.
  apply NoDup_cons in Hdup as [Hnotin _]. apply Hnotin, list_elem_of_here.
Qed.

(** ** Chat turns *)

(** While a send is in flight, a further send changes nothing. *)
Lemma handleSend_while_typing now (st : ChatInterface.t) :
  isTyping st = true → step st (Send now) = st.
Proof.
  intros Htyping. unfold step, handleSend. rewrite Htyping.
  destruct (trim (input st)), (chatSessionRef st), (pending st); reflexivity.
Qed.

Lemma step_in_flight st e : in_flight st → in_flight (step st e).
Proof.
  destruct st as [open msgs inp init typing chat p]. unfold in_flight, step, handleSend.
  cbn. intros Hst.
  destruct e as [chat'| |open'|value|now|now|now|text| |now]; cbn;
    repeat match goal with
           | |- context [match ?x with _ => _ end] => destruct x; cbn
           end;
    try assumption; destruct Hst as [Hp Ht]; split; intros;
    first [congruence | apply Hp; congruence | apply Ht; congruence].
Qed.

Lemma reachable_in_flight st : reachable st → in_flight st.
Proof.
  intros [events ->]. unfold run.
  induction events as [|e events IH] using rev_ind.
  - unfold in_flight. simpl. naive_solver.
  - rewrite foldl_app. simpl. by apply step_in_flight.
Qed.

(** As long as no stream fails, at most one message is in streaming state. *)
Lemma filter_streaming_fmap (f : ChatMessage.t → ChatMessage.t) (msgs : list ChatMessage.t) :
  (∀ msg, ChatMessage.isStreaming (f msg) = ChatMessage.isStreaming msg) →
  filter (λ msg, streaming msg = true) (f <$> msgs)
  = f <$> filter (λ msg, streaming msg = true) msgs.
Proof.
  intros Hf.
  assert (∀ msg, streaming (f msg) = streaming msg) as Hs.
  { intros msg. unfold streaming. by rewrite Hf. }
  induction msgs as [|msg msgs IH]; [done|].
  rewrite fmap_cons !filter_cons.
  destruct (decide (streaming (f msg) = true)) as [H1|H1],
           (decide (streaming msg = true)) as [H2|H2];
    rewrite ?fmap_cons ?IH; try done; rewrite Hs in H1; congruence.
Qed.

Lemma filter_streaming_cleared bot (msgs : list ChatMessage.t) :
  Forall (λ msg, ChatMessage.id msg = bot) (filter (λ msg, streaming msg = true) msgs) →
  filter (λ msg, streaming msg = true)
    ((λ msg, if decide (ChatMessage.id msg = bot)
             then {| ChatMessage.id := ChatMessage.id msg;
                     ChatMessage.role := ChatMessage.role msg;
                     ChatMessage.text := ChatMessage.text msg;
                     ChatMessage.isStreaming := Some false |}
             else msg) <$> msgs) = [].
Proof.
  induction msgs as [|msg msgs IH]; [done|].
  rewrite fmap_cons filter_cons. intros Hall.
  rewrite filter_cons_False.
  - apply IH. destruct (decide (streaming msg = true)); [|done].
    by apply Forall_cons in Hall as [_ ?].
  - destruct (decide (ChatMessage.id msg = bot)) as [Hid|Hid].
    { unfold streaming. cbn. rewrite bool_decide_eq_true. congruence. }
    intros Hs. rewrite decide_True in Hall; [|done].
    by apply Forall_cons in Hall as [? _].
Qed.

Ltac record_cbn :=
  unfold streamingMessages, set_messages, suspend, settle;
  cbn [messages pending input chatSessionRef isTyping isInitializing isOpen].

Lemma step_tidy st e :
  (∀ now, e ≠ StreamFailed now) →
  in_flight st → tidy st → tidy (step st e).
Proof.
  destruct st as [open msgs inp init typing chat p].
  unfold in_flight, tidy, step, handleSend. record_cbn.
  intros Hok Hfl Htidy.
  destruct e as [chat'| |open'|value|now|now|now|text| |now]; record_cbn.
  - rewrite filter_cons_False; [|by vm_compute].
    rewrite filter_nil. destruct p; first [done | split; [cbn; lia | constructor]].
  - rewrite filter_cons_False; [|by vm_compute].
    rewrite filter_nil. destruct p; first [done | split; [cbn; lia | constructor]].
  - done.
  - by destruct (init || typing).
  - destruct (trim inp); [done|]. destruct chat; [|done]. destruct typing; [done|].
    record_cbn. rewrite filter_app filter_cons_False; [|by vm_compute].
    rewrite filter_nil app_nil_r.
    destruct p; [done|done|]. assert (false = true) by (by apply Hfl). done.
  - destruct p; [done| |done]. record_cbn.
    rewrite filter_app Htidy filter_cons_True; [|by vm_compute].
    rewrite filter_nil. split; [cbn; lia|]. by repeat constructor.
  - destruct p; [done| |done]. record_cbn.
    by rewrite filter_app Htidy filter_cons_False; [|by vm_compute].
  - destruct text as [[|c text]|], p; try done. record_cbn.
    rewrite filter_streaming_fmap; [|intros msg; by case_decide].
    destruct Htidy as [Hlen Hall]. rewrite length_fmap. split; [done|].
    apply Forall_fmap. eapply Forall_impl; [exact Hall|].
    intros msg Hid. cbn. by case_decide.
  - destruct p; [done|done|]. record_cbn. apply filter_streaming_cleared, Htidy.
  - by destruct (Hok now).
Qed.

Lemma no_failure_one_streaming_message events :
  (∀ now, StreamFailed now ∉ events) →
  (length (streamingMessages (run initial events)) ≤ 1)%nat.
Proof.
  intros Hok.
  assert (in_flight (run initial events) ∧ tidy (run initial events)) as [_ Htidy].
  { unfold run. induction events as [|e events IH] using rev_ind.
    - split; [|done]. unfold in_flight. cbn. split; [done|discriminate].
    - rewrite foldl_app. cbn. destruct IH as [Hfl Htidy].
      { intros now Hin. apply (Hok now), elem_of_app. by left. }
      split; [by apply step_in_flight|]. apply step_tidy; [|done..].
      intros now ->. apply (Hok now), elem_of_app. right. apply list_elem_of_here. }
  unfold tidy in Htidy. destruct (pending (run initial events)).
  - rewrite Htidy. cbn. lia.
  - rewrite Htidy. cbn. lia.
  - apply Htidy.
Qed.

(** C6 on the code: after a stream has failed, its placeholder keeps
    [isStreaming: true] (only the path that ends the stream normally clears
    it), the busy flag is cleared, the next send is accepted, and its
    placeholder is a second model message in streaming state. *)
Theorem two_streaming_messages_after_failure :
  reachable (run initial broken_stream)
  ∧ (ChatMessage.id <$> streamingMessages (run initial broken_stream))
    = [lit "1401"; lit "5301"]
  ∧ Forall (λ msg, ChatMessage.role msg = model ∧ ChatMessage.isStreaming msg = Some true)
      (streamingMessages (run initial broken_stream))
  ∧ length (messages (run initial (take 6 broken_stream))) = 4%nat
  ∧ isTyping (run initial (take 6 broken_stream)) = false
  ∧ length (messages (run initial (take 8 broken_stream))) = 5%nat.
Proof.
  split; [by exists broken_stream|].
  split; [vm_compute; reflexivity|].
  split; [|repeat split; vm_compute; reflexivity].
  assert (streamingMessages (run initial broken_stream)
          = [ {| ChatMessage.id := lit "1401"; ChatMessage.role := model;
                 ChatMessage.text := lit "It was"; ChatMessage.isStreaming := Some true |};
              {| ChatMessage.id := lit "5301"; ChatMessage.role := model;
                 ChatMessage.text := []; ChatMessage.isStreaming := Some true |} ]) as ->
    by (vm_compute; reflexivity).
  repeat constructor.
Qed.

(** The same session when the stream ends normally: one streaming message at
    most, at every moment. *)
Example one_streaming_message_without_failure :
  (λ n, length (streamingMessages
     (run initial (take n (<[5%nat:=StreamEnd]> broken_stream))))) <$> seq 0 10
  = [0; 0; 0; 0; 1; 1; 0; 0; 0; 1]%nat.
Proof. vm_compute. reflexivity. Qed.

Example message_or_examples :
  message_or (Error (lit "API Key is missing.")) (lit "fallback") = Literal (lit "API Key is missing.")
  ∧ message_or ReadFailure (lit "fallback") = Literal (lit "fallback")
  ∧ message_or (Rejection (Some (lit "quota"))) (lit "fallback") = Literal (lit "quota").
Proof. repeat split. Qed.

Example handleSend_example :
  ChatMessage.text <$> messages (run initial (take 3 broken_stream))
  = [ChatMessage.text welcome; lit "Which video grew fastest?"].
Proof. vm_compute. reflexivity. Qed.

(** ** Examples of the chat seed *)

Example contextMsg_example :
  contextMsg
    [{| FileData.name := lit "a.csv"; FileData.content := lit "x,y"; FileData.size := 3 |}]
    (JObject [(lit "combinedStrategicInsights", JString (lit "ok"));
              (lit "retention", JString (lit "long text"));
              (lit "recommendations", JArray [])])
  = Normal (lit "Here is the context for our session:\n\n--- FILE 1: a.csv ---\nx,y\n\n--- INITIAL ANALYSIS SUMMARY ---\n"
            ++ json "{'insights':'ok','recommendations':[]}"
            ++ lit "\n\nPlease acknowledge you have received the data and are ready for questions. Do not repeat the analysis.").
Proof. vm_compute. reflexivity. Qed.

(** * Further properties *)

(** ** Searching in strings *)

Lemma startsWith_app p s : startsWith p (p ++ s) = true.
Proof. induction p as [|a p IH]; simpl; [by destruct s|]. by rewrite N.eqb_refl IH. Qed.

Lemma startsWith_true p : ∀ s, startsWith p s = true → s = p ++ drop (length p) s.
Proof.
  induction p as [|a p IH]; intros [|b s]; simpl; try done.
  intros [Hab Hps]%andb_true_iff. apply N.eqb_eq in Hab as ->. f_equal. by apply IH.
Qed.

Lemma replace_by_empty_prefix pattern s :
  pattern ≠ [] → replace_by_empty pattern (pattern ++ s) = s.
Proof.
  destruct pattern as [|a pattern]; [done|]. intros _.
  change ((a :: pattern) ++ s) with (a :: (pattern ++ s)).
  cbn [replace_by_empty]. change (a :: (pattern ++ s)) with ((a :: pattern) ++ s).
  by rewrite startsWith_app drop_app_length.
Qed.

Lemma split_from_cons sep skip cur s :
  ∃ piece pieces, split_from sep skip cur s = piece :: pieces.
Proof.
  revert skip cur. induction s as [|c s IH]; intros skip cur; simpl; [by eauto|].
  destruct skip; [|by apply IH]. destruct (startsWith sep (c :: s)); [by eauto|by apply IH].
Qed.

Lemma join_with_cons sep piece pieces :
  pieces ≠ [] → join_with sep (piece :: pieces) = piece ++ sep ++ join_with sep pieces.
Proof. by destruct pieces. Qed.

(** Joining the pieces with the separator gives the text back. *)
Lemma join_split_from sep s : sep ≠ [] → ∀ skip cur,
  join_with sep (split_from sep skip cur s) = reverse cur ++ drop skip s.
Proof.
  intros Hsep. induction s as [|c s IH]; intros skip cur.
  - simpl. by rewrite drop_nil app_nil_r.
  - cbn [split_from]. destruct skip as [|k]; [|by rewrite IH].
    destruct (startsWith sep (c :: s)) eqn:Hstart.
    + destruct (split_from_cons sep (length sep - 1) [] s) as (piece & pieces & Hsplit).
      rewrite join_with_cons; [|by rewrite Hsplit]. rewrite IH.
      apply startsWith_true in Hstart. destruct sep as [|a sep]; [done|].
      simpl in *. rewrite Nat.sub_0_r. by rewrite -Hstart.
    + rewrite IH reverse_cons. rewrite <- app_assoc. done.
Qed.

Lemma join_split sep s : sep ≠ [] → join_with sep (split sep s) = s.
Proof. intros Hsep. unfold split. by rewrite join_split_from. Qed.

Lemma length_split_unit c s : ∀ cur,
  length (split_from [c] 0 cur s) = S (length (filter (λ d, d = c) s)).
Proof.
  induction s as [|d s IH]; intros cur; [done|].
  rewrite filter_cons. cbn [split_from startsWith length Nat.sub].
  destruct (decide (d = c)) as [->|Hdc].
  - rewrite N.eqb_refl. cbn [andb length]. by rewrite IH.
  - destruct (c =? d) eqn:Hcd; [apply N.eqb_eq in Hcd; congruence|].
    cbn [andb]. by rewrite IH.
Qed.

(** ** MarkdownText *)

Lemma lit_markers :
  lit "### " = [35; 35; 35; 32] ∧ lit "## " = [35; 35; 32] ∧ lit "- " = [45; 32]
  ∧ lit "* " = [42; 32] ∧ lit "**" = [42; 42] ∧ lit "\n" = [10].
Proof. repeat split. Qed.

(** X1.  A content that is not empty is rendered as one block per line: as
    many blocks as the content has line feeds, and one more. *)
Theorem MarkdownText_one_block_per_line content :
  content ≠ [] →
  ∃ blocks, MarkdownText content = Some blocks
    ∧ length blocks = S (line_feeds content).
Proof.
  intros Hcontent. destruct content as [|c content]; [done|].
  eexists. split; [reflexivity|].
  rewrite length_fmap /split (proj2 (proj2 (proj2 (proj2 (proj2 lit_markers))))).
  apply length_split_unit.
Qed.

Lemma MarkdownText_one_block_per_line_witness :
  ∃ blocks, MarkdownText (lit "## Trends\n\nViews are up") = Some blocks
    ∧ length blocks = S (line_feeds (lit "## Trends\n\nViews are up")).
Proof. apply MarkdownText_one_block_per_line. vm_compute. discriminate. Defined.

(** X2.  The lines that are rendered as a heading are those that start with
    three or with two hash signs and a space, and the heading is the rest of
    the line; the lines that are rendered as a bullet are those that start
    with a hyphen or an asterisk and a space, and the bullet is the rest of
    the line.  The rest is taken as it is: the marker is removed once, and
    asterisks in the rest are not read as bold. *)
Theorem MarkdownText_line_markers line text :
  (MarkdownText_line line = H3 text
   ↔ line = lit "### " ++ text ∨ line = lit "## " ++ text)
  ∧ (MarkdownText_line line = Bullet text
     ↔ line = lit "- " ++ text ∨ line = lit "* " ++ text).
Proof.
  split; (split; [|intros [->| ->]; reflexivity]); unfold MarkdownText_line.
  - destruct (startsWith (lit "### ") line) eqn:H3'.
    { apply startsWith_true in H3'. set (rest := drop _ line) in H3'. clearbody rest.
      subst line. rewrite replace_by_empty_prefix; [|done]. intros [= <-]. by left. }
    destruct (startsWith (lit "## ") line) eqn:H2'.
    { apply startsWith_true in H2'. set (rest := drop _ line) in H2'. clearbody rest.
      subst line. rewrite replace_by_empty_prefix; [|done]. intros [= <-]. by right. }
    by repeat match goal with |- context [if ?b then _ else _] => destruct b end.
  - destruct (startsWith (lit "### ") line); [done|].
    destruct (startsWith (lit "## ") line); [done|].
    destruct (startsWith (lit "- ") line) eqn:Hdash.
    { apply startsWith_true in Hdash. set (rest := drop _ line) in Hdash. clearbody rest.
      subst line. intros [= <-]. left. reflexivity. }
    destruct (startsWith (lit "* ") line) eqn:Hstar.
    { apply startsWith_true in Hstar. set (rest := drop _ line) in Hstar. clearbody rest.
      subst line. intros [= <-]. right. reflexivity. }
    cbn [orb].
    by repeat match goal with |- context [if ?b then _ else _] => destruct b end.
Qed.

Lemma inline_text_imap (parts : list jsstring) :
  inline_text <$> imap (λ i part, if (i mod 2 =? 1)%nat then Strong part else Plain part) parts
  = parts.
Proof.
  rewrite fmap_imap. transitivity (imap (λ _ : nat, id) parts).
  - apply imap_ext. intros i x _. unfold compose. by destruct (i mod 2 =? 1)%nat.
  - by rewrite imap_const list_fmap_id.
Qed.

(** X3.  In a line that is rendered as a paragraph no text is lost: the
    children, joined by the two asterisks, are the line; and the children are
    in turn plain and strong, the first one plain. *)
Theorem MarkdownText_line_paragraph line children :
  MarkdownText_line line = P children →
  join_with (lit "**") (inline_text <$> children) = line
  ∧ ∀ i child, children !! i = Some child →
      is_strong child = bool_decide (i mod 2 = 1)%nat.
Proof.
  unfold MarkdownText_line.
  destruct (startsWith (lit "### ") line); [done|].
  destruct (startsWith (lit "## ") line); [done|].
  destruct (startsWith (lit "- ") line || startsWith (lit "* ") line); [done|].
  destruct (bool_decide (trim line = [])); [done|].
  pose proof (join_split (lit "**") line) as Hjoin.
  destruct (split_from_cons (lit "**") 0 [] line) as (part & parts & Hparts).
  fold (split (lit "**") line) in Hparts. rewrite Hparts in Hjoin |- *.
  destruct parts as [|part' parts].
  - intros [= <-]. split; [reflexivity|].
    intros [|i] child; [|done]. by intros [= <-].
  - rewrite bool_decide_eq_true_2; [|simpl; lia]. intros Hchildren.
    set (strong := λ (i : nat) (part : jsstring), _) in Hchildren.
    assert (children = imap strong (part :: part' :: parts)) as -> by congruence.
    split; [rewrite inline_text_imap; by apply Hjoin|].
    intros i child. rewrite list_lookup_imap.
    destruct ((part :: part' :: parts) !! i); [|done]. intros [= <-]. unfold strong.
    destruct (i mod 2 =? 1)%nat eqn:Hodd; cbn [is_strong].
    + apply Nat.eqb_eq in Hodd. by rewrite bool_decide_eq_true_2.
    + apply Nat.eqb_neq in Hodd. by rewrite bool_decide_eq_false_2.
Qed.

Lemma MarkdownText_line_paragraph_witness :
  join_with (lit "**")
    (inline_text <$> [Plain (lit "Views are "); Strong (lit "up"); Plain (lit " by 10%, ");
                      Strong (lit "again")]) = bold_line
  ∧ ∀ i child,
      [Plain (lit "Views are "); Strong (lit "up"); Plain (lit " by 10%, ");
       Strong (lit "again")] !! i = Some child →
      is_strong child = bool_decide (i mod 2 = 1)%nat.
Proof. apply (MarkdownText_line_paragraph bold_line). vm_compute. reflexivity. Defined.

Example MarkdownText_examples :
  MarkdownText (lit "## Trends\n- **Shorts** grow\n\nViews are **up** by 10%\n#### deep")
  = Some [H3 (lit "Trends"); Bullet (lit "**Shorts** grow"); Br;
          P [Plain (lit "Views are "); Strong (lit "up"); Plain (lit " by 10%")];
          P [Plain (lit "#### deep")]].
Proof. vm_compute. reflexivity. Qed.

(** ** Reading files, once more *)

(** X4.  Cutting a text is stable: the content of a file record, read again
    as the text of a file, comes out as it is.  A content that was cut has
    150015 code units, so it is cut again, at the same place, and gets the
    same marker. *)
Theorem readFileAsText_stable (file again : File.t) text data :
  File.readAsText file = onload text →
  readFileAsText file = Normal data →
  File.readAsText again = onload (FileData.content data) →
  FileData.content <$> readFileAsText again = Normal (FileData.content data).
Proof.
  unfold readFileAsText. intros -> [= <-]. cbn [FileData.content]. intros ->.
  unfold MAX_CHARS, substring_to.
  remember (N.to_nat 150000) as n eqn:Hn.
  destruct (150000 <? N.of_nat (length text)) eqn:Hlen.
  - apply N.ltb_lt in Hlen.
    assert (length (take n text) = n) as Htake by (rewrite length_take; lia).
    assert ((150000 <? N.of_nat (length (take n text ++ TRUNCATED))) = true) as ->.
    { apply N.ltb_lt. rewrite length_app Htake length_TRUNCATED. lia. }
    cbn [fmap Completion_fmap FileData.content]. f_equal. f_equal.
    by apply take_app_length'.
  - rewrite Hlen. reflexivity.
Qed.

Lemma readFileAsText_stable_witness :
  FileData.content <$> readFileAsText views_file = Normal (FileData.content views_data).
Proof.
  apply (readFileAsText_stable views_file views_file views_text views_data);
    vm_compute; reflexivity.
Defined.

(** X5.  Reading a selection is all or nothing: either no file fails, and the
    wait fulfils with one record per file, in the order of the files, each
    with the name and the size of its file; or some file fails, and the wait
    rejects with the failure of the reader. *)
Theorem Promise_all_readFileAsText (files : list File.t) :
  (Forall (λ file, File.readAsText file ≠ onerror) files
   ∧ ∃ dataList, Promise_all (readFileAsText <$> files) = Normal dataList
       ∧ FileData.name <$> dataList = File.name <$> files
       ∧ FileData.size <$> dataList = File.size <$> files)
  ∨ (Exists (λ file, File.readAsText file = onerror) files
     ∧ Promise_all (readFileAsText <$> files) = Throw ReadFailure).
Proof.
  induction files as [|file files IH].
  - left. split; [constructor|]. by exists [].
  - rewrite fmap_cons. cbn [Promise_all].
    destruct (File.readAsText file) as [text|] eqn:Hread.
    + assert (∃ data, readFileAsText file = Normal data
                ∧ FileData.name data = File.name file
                ∧ FileData.size data = File.size file) as (data & -> & Hname & Hsize).
      { unfold readFileAsText. rewrite Hread. by eexists. }
      cbn [mbind Completion_bind].
      destruct IH as [(Hall & dataList & -> & Hnames & Hsizes)|(Hsome & ->)].
      * left. split; [constructor; [by rewrite Hread|done]|].
        eexists. split; [reflexivity|]. by rewrite !fmap_cons Hnames Hsizes Hname Hsize.
      * right. split; [by apply Exists_cons_tl|done].
    + right. split; [by apply Exists_cons_hd|].
      unfold readFileAsText. by rewrite Hread.
Qed.

(** ** The handlers of [App] *)



(** [prev.filter((_, i) => i !== index)] takes out the element at [index], if
    there is one. *)
Lemma filter_index_delete {A : Type} (index : nat) (l : list A) : ∀ k,
  App.filter_index (λ i, negb (i =? index)%nat) k l
  = if decide (k ≤ index)%nat then delete (index - k)%nat l else l.
Proof.
  induction l as [|x l IH]; intros k; cbn [App.filter_index].
  - by case_decide.
  - rewrite IH. destruct (k =? index)%nat eqn:Hk; cbn [negb].
    + apply Nat.eqb_eq in Hk as ->. rewrite Nat.sub_diag.
      repeat case_decide; try lia. done.
    + apply Nat.eqb_neq in Hk. repeat case_decide; try lia; [|done].
      replace (index - k)%nat with (S (index - S k)) by lia. done.
Qed.

(** X7.  [handleRemoveFile] takes the file at the given position out of the
    selection and keeps the other files in their order; a position past the
    end removes nothing.  Nothing else of the state changes. *)
Theorem handleRemoveFile_delete index (st : App.t) :
  App.files (App.handleRemoveFile index st) = delete index (App.files st)
  ∧ (length (App.files st) ≤ index → App.handleRemoveFile index st = st)%nat
  ∧ App.errorMsg (App.handleRemoveFile index st) = App.errorMsg st
  ∧ App.appState (App.handleRemoveFile index st) = App.appState st.
Proof.
  assert (App.files (App.handleRemoveFile index st) = delete index (App.files st)) as Hdel.
  { unfold App.handleRemoveFile. cbn [App.files]. rewrite filter_index_delete.
    case_decide; [|lia]. by rewrite Nat.sub_0_r. }
  split; [done|]. split; [|done].
  intros Hlen. destruct st as [files ? ? ? ?]. unfold App.handleRemoveFile in *.
  cbn [App.files App.fileDataList App.appState App.analysisData App.errorMsg] in *.
  rewrite Hdel. f_equal. apply list_eq. intros i.
  destruct (decide (i < index)%nat); [by rewrite list_lookup_delete_lt|].
  rewrite list_lookup_delete_ge; [|lia]. rewrite !lookup_ge_None_2; [done|lia..].
Qed.

Lemma handleRemoveFile_delete_witness :
  selected_names (App.handleRemoveFile 1 three_files) = [lit "views.csv"; lit "revenue.csv"]
  ∧ App.handleRemoveFile 3 three_files = three_files.
Proof.
  split; [vm_compute; reflexivity|].
  apply (proj1 (proj2 (handleRemoveFile_delete 3 three_files))). vm_compute. lia.
Defined.

(** Every file of a selection has its name among the selected names
    afterwards. *)
Lemma handleFilesSelected_known newFiles st (file : File.t) :
  file ∈ newFiles → File.name file ∈ selected_names (App.handleFilesSelected newFiles st).
Proof.
  intros Hin. rewrite handleFilesSelected_names elem_of_app list_elem_of_filter.
  destruct (decide (File.name file ∈ selected_names st)); [by left|right].
  split; [done|]. apply list_elem_of_fmap. by exists file.
Qed.

Lemma filter_none {A : Type} (P : A → Prop) `{∀ x, Decision (P x)} (l : list A) :
  Forall (λ x, ¬ P x) l → filter P l = [].
Proof. induction 1 as [|x l Hx _ IH]; [done|]. by rewrite filter_cons_False. Qed.

(** X8.  Selecting the same files a second time changes nothing: every one of
    them is known by its name after the first time. *)
Theorem handleFilesSelected_idempotent newFiles (st : App.t) :
  App.handleFilesSelected newFiles (App.handleFilesSelected newFiles st)
  = App.handleFilesSelected newFiles st.
Proof.
  assert (filter (λ f, File.name f ∉ (list_to_set
            (File.name <$> App.files (App.handleFilesSelected newFiles st)) : gset jsstring))
            newFiles = []) as Hnone.
  { apply filter_none, Forall_forall. intros f Hf Hnew. apply Hnew.
    apply elem_of_list_to_set. by apply (handleFilesSelected_known _ st f). }
  unfold App.handleFilesSelected at 1.
  cbn [App.fileDataList App.appState App.analysisData App.errorMsg].
  rewrite Hnone app_nil_r. reflexivity.
Qed.

(** X9.  When the selected names are distinct, they stay so exactly when the
    names that a selection adds, those of its files that are not known yet,
    are distinct among themselves: a name is compared with the names selected
    before, not with the other names of the same selection. *)
Theorem handleFilesSelected_NoDup_iff newFiles (st : App.t) :
  NoDup (selected_names st) →
  NoDup (selected_names (App.handleFilesSelected newFiles st))
  ↔ NoDup (filter (λ name, name ∉ selected_names st) (File.name <$> newFiles)).
Proof.
  intros Hst. rewrite handleFilesSelected_names NoDup_app. split; [by intros (_ & _ & ?)|].
  intros Hnew. split; [done|]. split; [|done].
  intros name Hin. rewrite list_elem_of_filter. tauto.
Qed.

Lemma handleFilesSelected_NoDup_iff_witness :
  NoDup (selected_names
           (App.handleFilesSelected [csv "a.csv" "x,1"; csv "b.csv" "y,2"] App.initial))
  ↔ NoDup (filter (λ name, name ∉ selected_names App.initial)
             (File.name <$> [csv "a.csv" "x,1"; csv "b.csv" "y,2"])).
Proof.
  apply (handleFilesSelected_NoDup_iff [csv "a.csv" "x,1"; csv "b.csv" "y,2"] App.initial).
  vm_compute. constructor.
Defined.

(** X10.  A file that was removed can be selected again: once it is out of a
    selection of distinct names its name is no longer known, so selecting it
    puts it back, at the end. *)
Theorem handleFilesSelected_after_remove index (st : App.t) (file : File.t) :
  NoDup (selected_names st) →
  App.files st !! index = Some file →
  App.files (App.handleFilesSelected [file] (App.handleRemoveFile index st))
  = delete index (App.files st) ++ [file].
Proof.
  intros Hnames Hfile.
  assert (App.files (App.handleRemoveFile index st) = delete index (App.files st)) as Hdel.
  { unfold App.handleRemoveFile. cbn [App.files]. rewrite filter_index_delete.
    case_decide; [|lia]. by rewrite Nat.sub_0_r. }
  unfold App.handleFilesSelected. cbn [App.files]. rewrite Hdel. f_equal.
  rewrite filter_cons_True; [done|].
  rewrite elem_of_list_to_set. unfold selected_names in Hnames.
  rewrite -(take_drop_middle _ _ _ Hfile) in Hnames.
  rewrite delete_take_drop. rewrite !fmap_app fmap_cons in Hnames |- *.
  apply NoDup_app in Hnames as (_ & Htake & Hdrop).
  apply NoDup_cons in Hdrop as [Hdrop _].
  rewrite elem_of_app. intros [Hin|Hin]; [|done].
  apply (Htake _ Hin), list_elem_of_here.
Qed.

Lemma handleFilesSelected_after_remove_witness :
  selected_names
    (App.handleFilesSelected [csv "views.csv" "video,views\nv01,120\n"]
       (App.handleRemoveFile 0 three_files))
  = [lit "retention.csv"; lit "revenue.csv"; lit "views.csv"]
  ∧ App.files
      (App.handleFilesSelected [csv "views.csv" "video,views\nv01,120\n"]
         (App.handleRemoveFile 0 three_files))
    = delete 0%nat (App.files three_files) ++ [csv "views.csv" "video,views\nv01,120\n"].
Proof.
  split; [vm_compute; reflexivity|].
  apply (handleFilesSelected_after_remove 0 three_files).
  - apply (bool_decide_unpack _). vm_compute. exact I.
  - vm_compute. reflexivity.
Defined.

(** ** What the flattening step throws *)

Lemma only_TypeError_bind {A B : Type} (m : Completion A) (k : A → Completion B) :
  only_TypeError m → (∀ a, m = Normal a → only_TypeError (k a)) → only_TypeError (m ≫= k).
Proof.
  intros Hm Hk e. destruct m as [a|e'|]; simpl; [by apply Hk| |done].
  intros [= <-]. by apply Hm.
Qed.

Lemma only_TypeError_Normal {A : Type} (a : A) : only_TypeError (Normal a).
Proof. intros e. discriminate. Qed.

Lemma only_TypeError_fmap {A B : Type} (f : A → B) (m : Completion A) :
  only_TypeError m → only_TypeError (f <$> m).
Proof. intros Hm e. destruct m; simpl; [done| |done]. intros [= <-]. by apply Hm. Qed.

Lemma Get_only_TypeError v k : only_TypeError (Get v k).
Proof. intros e. destruct v; simpl; congruence. Qed.

Lemma Number_toString_only_TypeError n : only_TypeError (Number_toString n).
Proof.
  intros e. unfold Number_toString.
  repeat match goal with |- context [if ?b then _ else _] => destruct b end; discriminate.
Qed.

Lemma ToString_only_TypeError : ∀ v, only_TypeError (ToString v).
Proof.
  fix IH 1. intros [| |b|n|s|l|ps]; cbn [ToString];
    try apply only_TypeError_Normal.
  - apply Number_toString_only_TypeError.
  - induction l as [|x rest IHrest]; [apply only_TypeError_Normal|].
    apply only_TypeError_bind.
    + destruct (nullish x); [apply only_TypeError_Normal|apply IH].
    + intros sx _. destruct rest as [|y rest]; [apply only_TypeError_Normal|].
      apply only_TypeError_bind; [exact IHrest|]. intros. apply only_TypeError_Normal.
  - destruct (own (lit "toString") ps); [|apply only_TypeError_Normal].
    intros e. congruence.
Qed.

Lemma set_property_only_TypeError k v ps : only_TypeError (set_property k v ps).
Proof.
  intros e. unfold set_property. destruct (own k ps); [done|].
  case_decide; [|done]. by destruct v.
Qed.

Lemma forEach_only_TypeError {St : Type} (f : St → JSValue → Completion St) l :
  (∀ s x, only_TypeError (f s x)) → ∀ s, only_TypeError (forEach l f s).
Proof.
  intros Hf. induction l as [|x l IH]; intros s; cbn [forEach].
  - apply only_TypeError_Normal.
  - apply only_TypeError_bind; [apply Hf|]. intros. apply IH.
Qed.

Lemma mapM_only_TypeError {A B : Type} (f : A → Completion B) l :
  (∀ x, only_TypeError (f x)) → only_TypeError (mapM f l).
Proof.
  intros Hf. induction l as [|x l IH]; [apply only_TypeError_Normal|].
  change (mapM f (x :: l)) with (y ← f x; k ← mapM f l; mret (y :: k)).
  apply only_TypeError_bind; [apply Hf|]. intros y _.
  apply only_TypeError_bind; [apply IH|]. intros. apply only_TypeError_Normal.
Qed.

Lemma call_map_only_TypeError v f :
  (∀ x, only_TypeError (f x)) → only_TypeError (call_map v f).
Proof.
  intros Hf. destruct v; try (intros e; simpl; congruence).
  by apply only_TypeError_fmap, mapM_only_TypeError.
Qed.

Lemma dataPoint_only_TypeError chart item : only_TypeError (dataPoint chart item).
Proof.
  unfold dataPoint.
  apply only_TypeError_bind; [apply Get_only_TypeError|]. intros xAxisKey _.
  apply only_TypeError_bind; [apply ToString_only_TypeError|]. intros k _.
  apply only_TypeError_bind; [apply Get_only_TypeError|]. intros name _.
  apply only_TypeError_bind; [apply Get_only_TypeError|]. intros series _.
  apply only_TypeError_bind; [|intros; apply only_TypeError_Normal].
  destruct (truthy series && isArray series); [|apply only_TypeError_Normal].
  destruct series; try apply only_TypeError_Normal.
  apply forEach_only_TypeError. intros dp s.
  apply only_TypeError_bind; [apply Get_only_TypeError|]. intros key _.
  apply only_TypeError_bind; [apply Get_only_TypeError|]. intros value _.
  apply only_TypeError_bind; [apply ToString_only_TypeError|]. intros k' _.
  apply set_property_only_TypeError.
Qed.

Lemma flattenChart_only_TypeError chart : only_TypeError (flattenChart chart).
Proof.
  unfold flattenChart, flatData.
  apply only_TypeError_bind; [|intros; apply only_TypeError_Normal].
  apply only_TypeError_bind; [apply Get_only_TypeError|]. intros data _.
  apply only_TypeError_bind; [|intros; apply only_TypeError_Normal].
  destruct (nullish data); [apply only_TypeError_Normal|].
  apply call_map_only_TypeError, dataPoint_only_TypeError.
Qed.

Lemma transformCharts_only_TypeError result : only_TypeError (transformCharts result).
Proof.
  unfold transformCharts.
  apply only_TypeError_bind; [apply Get_only_TypeError|]. intros charts _.
  destruct (truthy charts && isArray charts); [|apply only_TypeError_Normal].
  apply only_TypeError_bind; [apply call_map_only_TypeError, flattenChart_only_TypeError|].
  intros charts' _. destruct result; try apply only_TypeError_Normal.
  apply only_TypeError_fmap, set_property_only_TypeError.
Qed.

(** X11.  The ways in which [analyzeFiles] rejects: with its own error when
    the API key is missing; otherwise with whatever the client rejected with,
    with its error "No response from Gemini" when the response has no text,
    with the syntax error of [JSON.parse], or with a [TypeError] raised while
    the charts of the parsed response are flattened.  There is no other. *)
Theorem analyzeFiles_rejections API_KEY generateContent files e :
  analyzeFiles API_KEY generateContent files = Throw e →
  (missing API_KEY = true
   ∧ e = Error (lit "API Key is missing. Please set the API_KEY environment variable."))
  ∨ (missing API_KEY = false
     ∧ (generateContent (promptText files) = Throw e
        ∨ (e = Error (lit "No response from Gemini")
           ∧ ∃ response, generateContent (promptText files) = Normal response
               ∧ default [] response = [])
        ∨ (e = SyntaxError
           ∧ ∃ text, generateContent (promptText files) = Normal (Some text)
               ∧ JSON_parse text = None)
        ∨ (e = TypeError
           ∧ ∃ text parsed, generateContent (promptText files) = Normal (Some text)
               ∧ JSON_parse text = Some parsed
               ∧ transformCharts parsed = Throw TypeError))).
Proof.
  unfold analyzeFiles. destruct (missing API_KEY); [intros [= <-]; by left|].
  intros Hrun. right. split; [done|].
  destruct (generateContent (promptText files)) as [[[|c text]|]|e'|];
    cbn [mbind Completion_bind] in Hrun; [| | | |done].
  - injection Hrun as <-. right. left. split; [done|]. by exists (Some []).
  - destruct (JSON_parse (c :: text)) as [parsed|] eqn:Hparse.
    + assert (e = TypeError) as -> by (by eapply transformCharts_only_TypeError).
      do 3 right. split; [done|]. by exists (c :: text), parsed.
    + injection Hrun as <-. right. right. left. split; [done|]. by exists (c :: text).
  - injection Hrun as <-. right. left. split; [done|]. by exists None.
  - injection Hrun as <-. by left.
Qed.

Lemma analyzeFiles_rejections_witness :
  (missing (Some (lit "secret")) = true
   ∧ SyntaxError
     = Error (lit "API Key is missing. Please set the API_KEY environment variable."))
  ∨ (missing (Some (lit "secret")) = false
     ∧ ((λ _ : jsstring, Normal (Some (lit "{oops"))) (promptText [views_data])
        = Throw SyntaxError
        ∨ (SyntaxError = Error (lit "No response from Gemini")
           ∧ ∃ response,
               (λ _ : jsstring, Normal (Some (lit "{oops"))) (promptText [views_data])
               = Normal response
               ∧ default [] response = [])
        ∨ (SyntaxError = SyntaxError
           ∧ ∃ text,
               (λ _ : jsstring, Normal (Some (lit "{oops"))) (promptText [views_data])
               = Normal (Some text)
               ∧ JSON_parse text = None)
        ∨ (SyntaxError = TypeError
           ∧ ∃ text parsed,
               (λ _ : jsstring, Normal (Some (lit "{oops"))) (promptText [views_data])
               = Normal (Some text)
               ∧ JSON_parse text = Some parsed
               ∧ transformCharts parsed = Throw TypeError))).
Proof.
  apply (analyzeFiles_rejections (Some (lit "secret")) (λ _, Normal (Some (lit "{oops")))
           [views_data] SyntaxError).
  vm_compute. reflexivity.
Defined.

(** ** The shape of what the flattening step returns *)

Lemma mapM_Normal_inv {A B : Type} (f : A → Completion B) l : ∀ k,
  mapM f l = Normal k → Forall2 (λ x y, f x = Normal y) l k.
Proof.
  induction l as [|x l IH]; intros k.
  - intros [= <-]. constructor.
  - change (mapM f (x :: l)) with (y ← f x; k ← mapM f l; mret (y :: k)).
    destruct (f x) as [y| |] eqn:Hx; cbn [mbind Completion_bind]; [|done..].
    destruct (mapM f l) as [k'| |]; cbn [mbind Completion_bind]; [|done..].
    intros [= <-]. constructor; [done|]. by apply IH.
Qed.

(** A chart that is flattened keeps its fields, [data] apart, and gets one
    record for each of its data points. *)
Lemma flattenChart_Normal_inv chart flat :
  flattenChart chart = Normal flat →
  nullish chart = false
  ∧ ∃ d recs, Get chart (lit "data") = Normal d
      ∧ flat = JObject (define (lit "data") (JArray recs) (spread chart))
      ∧ ((nullish d = true ∧ recs = [])
         ∨ ∃ items, d = JArray items
             ∧ Forall2 (λ item rec, dataPoint chart item = Normal rec) items recs).
Proof.
  unfold flattenChart, flatData. intros Hrun.
  split; [by destruct chart|].
  destruct (Get chart (lit "data")) as [d| |]; cbn [mbind Completion_bind] in Hrun;
    [|done..].
  destruct (nullish d) eqn:Hd.
  - cbn in Hrun. injection Hrun as <-. exists d, []. split; [done|]. split; [done|]. by left.
  - destruct d as [| | | | |items|]; try done. cbn [call_map] in Hrun.
    destruct (mapM (dataPoint chart) items) as [recs| |] eqn:Hmap; [|done..].
    cbn in Hrun. injection Hrun as <-. exists (JArray items), recs.
    split; [done|]. split; [done|]. right. exists items. split; [done|].
    by apply mapM_Normal_inv.
Qed.

(** X12.  When the charts of a response are flattened without an error, the
    result is the response with [charts] replaced, in place, by as many
    charts as before, each the flattening of the chart at its position: an
    object with the fields of the chart, [data] apart, whose [data] is an
    array with one record for each data point of the chart, and is empty for
    a chart without [data]. *)
Theorem transformCharts_shape fields charts result :
  own (lit "charts") fields = Some (JArray charts) →
  transformCharts (JObject fields) = Normal result →
  ∃ charts',
    result = JObject (update (lit "charts") (JArray charts') fields)
    ∧ length charts' = length charts
    ∧ ∀ i chart flat, charts !! i = Some chart → charts' !! i = Some flat →
        ∃ recs,
          flat = JObject (define (lit "data") (JArray recs) (spread chart))
          ∧ (∀ k, k ≠ lit "data" →
               own k (define (lit "data") (JArray recs) (spread chart)) = own k (spread chart))
          ∧ (∀ items, Get chart (lit "data") = Normal (JArray items) →
               length recs = length items)
          ∧ (∀ d, Get chart (lit "data") = Normal d → nullish d = true → recs = []).
Proof.
  intros Hcharts. unfold transformCharts. simpl. rewrite Hcharts. simpl.
  destruct (mapM flattenChart charts) as [charts'| |] eqn:Hmap; [|done..].
  simpl. unfold set_property. rewrite Hcharts. simpl. intros [= <-]. exists charts'.
  apply mapM_Normal_inv in Hmap.
  split; [done|]. split; [symmetry; by eapply Forall2_length|].
  intros i chart flat Hchart Hflat.
  pose proof (Forall2_lookup_lr _ _ _ _ _ _ Hmap Hchart Hflat) as Hrun.
  apply flattenChart_Normal_inv in Hrun as (_ & d & recs & Hd & -> & Hrecs).
  exists recs. split; [done|]. split; [|split].
  - intros k Hk. rewrite own_define. by case_decide.
  - intros items Hitems. rewrite Hitems in Hd. injection Hd as <-.
    destruct Hrecs as [[? _]|(items' & [= <-] & Hall)]; [done|].
    symmetry. by eapply Forall2_length.
  - intros d' Hd' Hnull. rewrite Hd' in Hd. injection Hd as <-.
    destruct Hrecs as [[_ ?]|(items & -> & _)]; done.
Qed.

Lemma transformCharts_shape_witness :
  ∃ charts',
    JObject [(lit "charts", JArray [flat_chart; JObject [(lit "data", JArray [])]])]
    = JObject (update (lit "charts") (JArray charts')
                 [(lit "charts", JArray [nested_chart; JObject []])])
    ∧ length charts' = length [nested_chart; JObject []]
    ∧ ∀ i chart flat,
        [nested_chart; JObject []] !! i = Some chart → charts' !! i = Some flat →
        ∃ recs,
          flat = JObject (define (lit "data") (JArray recs) (spread chart))
          ∧ (∀ k, k ≠ lit "data" →
               own k (define (lit "data") (JArray recs) (spread chart)) = own k (spread chart))
          ∧ (∀ items, Get chart (lit "data") = Normal (JArray items) →
               length recs = length items)
          ∧ (∀ d, Get chart (lit "data") = Normal d → nullish d = true → recs = []).
Proof.
  apply (transformCharts_shape [(lit "charts", JArray [nested_chart; JObject []])]
           [nested_chart; JObject []]); vm_compute; reflexivity.
Defined.

(** A malformed chart is not flattened. *)
Lemma flattenChart_malformed chart flat :
  malformed_chart chart → flattenChart chart ≠ Normal flat.
Proof.
  intros Hbad Hrun.
  apply flattenChart_Normal_inv in Hrun as (Hchart & d & recs & Hd & _ & Hrecs).
  destruct Hbad as [Hnull|[(d' & Hd' & Hnull & Harr)|(items & item & Hitems & Hin & Hnull)]].
  - congruence.
  - rewrite Hd' in Hd. injection Hd as <-.
    destruct Hrecs as [[? _]|(items & -> & _)]; [congruence|done].
  - rewrite Hitems in Hd. injection Hd as <-.
    destruct Hrecs as [[? _]|(items' & [= <-] & Hall)]; [done|].
    apply list_elem_of_lookup in Hin as [i Hi].
    destruct (Forall2_lookup_l _ _ _ _ _ Hall Hi) as (rec & _ & Hrun).
    unfold dataPoint in Hrun.
    destruct (Get chart (lit "xAxisKey")) as [x| |]; cbn [mbind Completion_bind] in Hrun;
      [|done..].
    destruct (ToPropertyKey x) as [k| |]; cbn [mbind Completion_bind] in Hrun; [|done..].
    by destruct item.
Qed.

(** X13.  One malformed chart in the response makes the whole analysis fail:
    when the parsed response has a [charts] array with a chart that is [null],
    or whose [data] is neither absent nor an array, or that has a [null]
    among its data points, [analyzeFiles] returns no result, whatever else the
    response holds. *)
Theorem analyzeFiles_malformed_chart API_KEY generateContent files text fields charts chart :
  generateContent (promptText files) = Normal (Some text) →
  JSON_parse text = Some (JObject fields) →
  own (lit "charts") fields = Some (JArray charts) →
  chart ∈ charts →
  malformed_chart chart →
  ∀ result, analyzeFiles API_KEY generateContent files ≠ Normal result.
Proof.
  intros Hgen Hparse Hcharts Hin Hbad result. unfold analyzeFiles.
  destruct (missing API_KEY); [done|]. rewrite Hgen. cbn [mbind Completion_bind].
  destruct text as [|c text]; [done|]. rewrite Hparse.
  unfold transformCharts. simpl. rewrite Hcharts. simpl.
  destruct (mapM flattenChart charts) as [charts'| |] eqn:Hmap; [|done..].
  apply mapM_Normal_inv in Hmap.
  apply list_elem_of_lookup in Hin as [i Hi].
  destruct (Forall2_lookup_l _ _ _ _ _ Hmap Hi) as (flat & _ & Hflat).
  by destruct (flattenChart_malformed chart flat).
Qed.

Lemma analyzeFiles_malformed_chart_witness :
  analyzeFiles (Some (lit "secret"))
    (λ _, Normal (Some (json "{'recommendations':[],'charts':[{'title':'Views','data':[]},{'title':'Watch time','data':'none'}]}")))
    [views_data]
  = Throw TypeError
  ∧ ∀ result,
      analyzeFiles (Some (lit "secret"))
        (λ _, Normal (Some (json "{'recommendations':[],'charts':[{'title':'Views','data':[]},{'title':'Watch time','data':'none'}]}")))
        [views_data]
      ≠ Normal result.
Proof.
  split; [vm_compute; reflexivity|].
  apply (analyzeFiles_malformed_chart (Some (lit "secret"))
           (λ _, Normal (Some (json "{'recommendations':[],'charts':[{'title':'Views','data':[]},{'title':'Watch time','data':'none'}]}")))
           [views_data]
           (json "{'recommendations':[],'charts':[{'title':'Views','data':[]},{'title':'Watch time','data':'none'}]}")
           [(lit "recommendations", JArray []);
            (lit "charts", JArray
               [JObject [(lit "title", JString (lit "Views")); (lit "data", JArray [])];
                JObject [(lit "title", JString (lit "Watch time"));
                         (lit "data", JString (lit "none"))]])]
           [JObject [(lit "title", JString (lit "Views")); (lit "data", JArray [])];
            JObject [(lit "title", JString (lit "Watch time"));
                     (lit "data", JString (lit "none"))]]
           (JObject [(lit "title", JString (lit "Watch time"));
                     (lit "data", JString (lit "none"))])).
  - reflexivity.
  - vm_compute. reflexivity.
  - vm_compute. reflexivity.
  - apply list_elem_of_further, list_elem_of_here.
  - right. left. exists (JString (lit "none")). repeat split; vm_compute; reflexivity.
Defined.

(** ** The chat seed, once more *)

Lemma Number_toString_no_throw n e : Number_toString n ≠ Throw e.
Proof.
  unfold Number_toString.
  repeat match goal with |- context [if ?b then _ else _] => destruct b end; discriminate.
Qed.

(** [JSON.stringify] throws on no value that [JSON.parse] can return. *)
Lemma serialize_no_throw : ∀ v e, serialize v ≠ Throw e.
Proof.
  fix IH 1. intros [| |b|n|s|l|ps] e; cbn [serialize]; try discriminate.
  - pose proof (Number_toString_no_throw n e). destruct (Number_toString n); simpl; congruence.
  - match goal with |- ?go l ≫= _ ≠ _ => assert (∀ e', go l ≠ Throw e') as Hgo end.
    { induction l as [|x rest IHrest]; intros e'; [done|].
      pose proof (IH x e'). destruct (serialize x); cbn [mbind Completion_bind];
        [|congruence..].
      pose proof (IHrest e').
      match goal with |- ?m ≫= _ ≠ _ => destruct m; simpl; congruence end. }
    match goal with |- ?m ≫= _ ≠ _ => pose proof (Hgo e); destruct m; simpl; congruence end.
  - match goal with |- ?go ps ≫= _ ≠ _ => assert (∀ e', go ps ≠ Throw e') as Hgo end.
    { induction ps as [|[k x] rest IHrest]; intros e'; [done|].
      pose proof (IH x e'). destruct (serialize x); cbn [mbind Completion_bind];
        [|congruence..].
      pose proof (IHrest e').
      match goal with |- ?m ≫= _ ≠ _ => destruct m; simpl; congruence end. }
    match goal with |- ?m ≫= _ ≠ _ => pose proof (Hgo e); destruct m; simpl; congruence end.
Qed.

Lemma JSON_stringify_no_throw v e : JSON_stringify v ≠ Throw e.
Proof.
  unfold JSON_stringify. pose proof (serialize_no_throw v e).
  destruct (serialize v); simpl; congruence.
Qed.

Lemma contextMsg_object files (fields : props) :
  contextMsg files (JObject fields)
  = summary ← JSON_stringify (JObject
      [(lit "insights", default JUndefined (own (lit "combinedStrategicInsights") fields));
       (lit "recommendations", default JUndefined (own (lit "recommendations") fields));
       (lit "filesDetected", default JUndefined (own (lit "filesDetected") fields))]);
    Normal (lit "Here is the context for our session:\n\n" ++ mjoin (imap fileBlock files)
            ++ lit "--- INITIAL ANALYSIS SUMMARY ---\n" ++ summary ++ lit "\n\n"
            ++ lit "Please acknowledge you have received the data and are ready for questions. Do not repeat the analysis.").
Proof.
  unfold contextMsg, forEach_indexed. cbn [Get mbind Completion_bind].
  rewrite (forEach_from_ext _ (λ acc file index, acc ++ fileBlock index file)).
  - rewrite forEach_from_blocks.
    destruct (JSON_stringify _) as [summary| |]; cbn [mbind Completion_bind]; [|done..].
    f_equal. rewrite <- ?app_assoc. reflexivity.
  - intros acc file index. unfold fileBlock. rewrite <- ?app_assoc. reflexivity.
Qed.

Lemma contextMsg_no_throw files (fields : props) e :
  contextMsg files (JObject fields) ≠ Throw e.
Proof.
  rewrite contextMsg_object.
  match goal with |- JSON_stringify ?v ≫= _ ≠ _ =>
    pose proof (JSON_stringify_no_throw v e); destruct (JSON_stringify v); simpl; congruence
  end.
Qed.

(** X14.  The context message of the chat, for an analysis that is an object:
    building it throws nothing; it is the opening line, the blocks of the
    files, which are the very blocks of the analysis prompt, the summary
    header, the JSON text of the three summary fields, and the closing
    request. *)
Theorem contextMsg_closed_form files (fields : props) :
  (∀ e, contextMsg files (JObject fields) ≠ Throw e)
  ∧ promptText files
    = lit "Analyze the following CSV files:\n\n" ++ mjoin (imap fileBlock files)
      ++ lit "\nProvide a detailed analysis following the ConTima structure."
  ∧ ∀ msg, contextMsg files (JObject fields) = Normal msg →
      ∃ summary,
        JSON_stringify (JObject
          [(lit "insights", default JUndefined (own (lit "combinedStrategicInsights") fields));
           (lit "recommendations", default JUndefined (own (lit "recommendations") fields));
           (lit "filesDetected", default JUndefined (own (lit "filesDetected") fields))])
        = Normal summary
        ∧ msg = lit "Here is the context for our session:\n\n" ++ mjoin (imap fileBlock files)
                ++ lit "--- INITIAL ANALYSIS SUMMARY ---\n" ++ summary ++ lit "\n\n"
                ++ lit "Please acknowledge you have received the data and are ready for questions. Do not repeat the analysis.".
Proof.
  split; [apply contextMsg_no_throw|]. split; [apply promptText_closed_form|].
  rewrite contextMsg_object. intros msg. destruct (JSON_stringify _) as [summary| |]; cbn [mbind Completion_bind];
      [|done..].
    intros [= <-]. by exists summary.
Qed.

Lemma contextMsg_closed_form_witness :
  ∃ summary,
    JSON_stringify (JObject
      [(lit "insights", default JUndefined (own (lit "combinedStrategicInsights") []));
       (lit "recommendations", default JUndefined (own (lit "recommendations") []));
       (lit "filesDetected", default JUndefined (own (lit "filesDetected") []))])
    = Normal summary
    ∧ lit "Here is the context for our session:\n\n--- FILE 1: views.csv ---\n" ++ views_text
      ++ lit "\n\n--- INITIAL ANALYSIS SUMMARY ---\n{}\n\nPlease acknowledge you have received the data and are ready for questions. Do not repeat the analysis."
      = lit "Here is the context for our session:\n\n" ++ mjoin (imap fileBlock [views_data])
        ++ lit "--- INITIAL ANALYSIS SUMMARY ---\n" ++ summary ++ lit "\n\n"
        ++ lit "Please acknowledge you have received the data and are ready for questions. Do not repeat the analysis.".
Proof.
  apply (proj2 (proj2 (contextMsg_closed_form [views_data] []))).
  vm_compute. reflexivity.
Defined.

(** X15.  How [initializeChat] ends for an analysis that is an object.  It
    rejects with its own error when the API key is missing, and otherwise
    only with what the client rejected the context message with; it fulfils
    only after the client has accepted the context message, and that message
    is then the one message of the session. *)
Theorem initializeChat_outcome API_KEY sendMessage files (fields : props) :
  (∀ e, initializeChat API_KEY sendMessage files (JObject fields) = Throw e →
     (missing API_KEY = true ∧ e = Error (lit "API Key is missing."))
     ∨ (missing API_KEY = false
        ∧ ∃ msg, contextMsg files (JObject fields) = Normal msg
            ∧ sendMessage msg = Throw e))
  ∧ (∀ chat, initializeChat API_KEY sendMessage files (JObject fields) = Normal chat →
       missing API_KEY = false
       ∧ ∃ msg, contextMsg files (JObject fields) = Normal msg
           ∧ sendMessage msg = Normal ()
           ∧ history chat = [msg]).
Proof.
  unfold initializeChat. destruct (missing API_KEY).
  { split; [|done]. intros e [= <-]. by left. }
  pose proof (contextMsg_no_throw files fields) as Hthrow.
  destruct (contextMsg files (JObject fields)) as [msg|e'|]; cbn [mbind Completion_bind].
  - destruct (sendMessage msg) as [[]|e'|] eqn:Hsend; cbn [mbind Completion_bind].
    + split; [done|]. intros chat [= <-]. split; [done|]. by exists msg.
    + split; [|done]. intros e [= <-]. right. split; [done|]. by exists msg.
    + done.
  - by destruct (Hthrow e').
  - done.
Qed.

Lemma initializeChat_outcome_witness :
  (missing (Some (lit "secret")) = true
   ∧ Rejection (Some (lit "quota")) = Error (lit "API Key is missing."))
  ∨ (missing (Some (lit "secret")) = false
     ∧ ∃ msg, contextMsg [views_data] (JObject report_two) = Normal msg
         ∧ (λ _ : jsstring, @Throw unit (Rejection (Some (lit "quota")))) msg
           = Throw (Rejection (Some (lit "quota")))).
Proof.
  apply (proj1 (initializeChat_outcome (Some (lit "secret"))
                  (λ _, Throw (Rejection (Some (lit "quota")))) [views_data] report_two)).
  vm_compute. reflexivity.
Defined.

(** ** Chat turns, once more *)

Ltac step_cases e :=
  destruct e as [chat'| |open'|value|now|now|now|text| |now];
  unfold step, handleSend, set_messages, suspend, settle;
  cbn [messages pending input chatSessionRef isTyping isInitializing isOpen];
  repeat match goal with
         | |- context [match ?x with _ => _ end] =>
             destruct x eqn:?;
             cbn [messages pending input chatSessionRef isTyping isInitializing isOpen]
         end.

Lemma step_typing_inv st e : typing_inv st → typing_inv (step st e).
Proof.
  destruct st as [open msgs inp init typing chat p]. unfold typing_inv.
  cbn [messages pending input chatSessionRef isTyping isInitializing isOpen].
  intros (Hfl & Hty & Hnone).
  assert (typing = false → p = NoSend) as Hidle.
  { intros ->. destruct p; [done|..]; by pose proof (proj2 Hfl ltac:(discriminate)). }
  assert (typing = true → p ≠ NoSend ∧ inp = [] ∧ ∃ c, chat = Some c) as Hbusy.
  { intros ->. destruct Hty as [? [c ?]]; [done|]. split; [by apply Hfl|]. eauto. }
  clear Hfl Hty.
  destruct typing;
    [destruct Hbusy as (Hp & -> & c & ->); [done|]|rewrite Hidle in Hnone |- *; [|done]];
    clear Hidle; destruct init; step_cases e;
    (split; [|split]);
    first [ done
          | by split; [intros _|]
          | split; [done|intros Hp'; by destruct Hp']
          | by intros _; split; [|eexists]
          | by intros ->; apply Hnone
          | by intros _; right ].
Qed.

(** X16.  In every state that the component can reach, [isTyping] is set
    exactly while a call of [handleSend] is suspended; while it is set, the
    input is empty and there is a session; and as long as there is no
    session, the list of messages is empty or holds the one message that
    reports the failed initialisation: nothing is sent before the session
    exists. *)
Theorem reachable_typing st :
  reachable st →
  (isTyping st = true ↔ pending st ≠ NoSend)
  ∧ (isTyping st = true → input st = [] ∧ is_Some (chatSessionRef st))
  ∧ (chatSessionRef st = None → messages st = [] ∨ messages st = [initError]).
Proof.
  intros [events ->]. change (typing_inv (run initial events)). unfold run.
  induction events as [|e events IH] using rev_ind.
  - unfold typing_inv. cbn. split; [|split]; [|done|by left]. split; [done|by intros []].
  - rewrite foldl_app. cbn [foldl]. by apply step_typing_inv.
Qed.

Lemma reachable_typing_witness :
  (isTyping (run initial (take 4 broken_stream)) = true
   ↔ pending (run initial (take 4 broken_stream)) ≠ NoSend)
  ∧ (isTyping (run initial (take 4 broken_stream)) = true →
       input (run initial (take 4 broken_stream)) = []
       ∧ is_Some (chatSessionRef (run initial (take 4 broken_stream))))
  ∧ (chatSessionRef (run initial (take 4 broken_stream)) = None →
       messages (run initial (take 4 broken_stream)) = []
       ∨ messages (run initial (take 4 broken_stream)) = [initError]).
Proof.
  apply (reachable_typing (run initial (take 4 broken_stream))).
  exists (take 4 broken_stream). reflexivity.
Defined.

(** The identifiers that [handleSend] makes start with a digit. *)
Lemma decimal_head n : ∃ c rest, decimal n = c :: rest ∧ is_digit c = true.
Proof.
  unfold decimal, lit.
  destruct (N.to_uint n) as [|d|d|d|d|d|d|d|d|d|d]; [by eexists _, _|..];
    cbn [NilZero.string_of_uint NilEmpty.string_of_uint list_ascii_of_string
         unescape];
    destruct (list_ascii_of_string _); by eexists _, _.
Qed.

Lemma decimal_not_greeting n : decimal n ≠ lit "welcome" ∧ decimal n ≠ lit "error".
Proof.
  destruct (decimal_head n) as (c & rest & -> & Hc).
  split; intros [= -> _]; by vm_compute in Hc.
Qed.

Lemma step_greeted st e :
  typing_inv st →
  greeted st ∧ (∀ bot full, pending st = Streaming bot full → ∃ n, bot = decimal n) →
  greeted (step st e)
  ∧ (∀ bot full, pending (step st e) = Streaming bot full → ∃ n, bot = decimal n).
Proof.
  destruct st as [open msgs inp init typing chat p]. unfold typing_inv, greeted.
  cbn [messages pending input chatSessionRef isTyping isInitializing isOpen].
  intros (Hfl & Hty & _) [Hgreeted Hbot].
  assert (p ≠ NoSend → ∃ first rest, msgs = first :: rest
            ∧ (first = welcome ∨ first = initError)) as Hbusy.
  { intros Hp. apply Hfl, Hty in Hp as [_ [c ->]].
    destruct Hgreeted as [[_ ?]|(rest & [->| ->])]; [discriminate| |].
    - exists welcome, rest. split; [reflexivity|left; reflexivity].
    - exists initError, rest. split; [reflexivity|right; reflexivity]. }
  assert (∀ first rest more, first = welcome ∨ first = initError →
            ∃ rest', (first :: rest) ++ more = welcome :: rest'
                     ∨ (first :: rest) ++ more = initError :: rest') as Happ.
  { intros first rest more [->| ->]; exists (rest ++ more); [left|right]; reflexivity. }
  assert (∀ n first rest (f : ChatMessage.t → ChatMessage.t),
            (∀ msg, ChatMessage.id msg ≠ decimal n → f msg = msg) →
            first = welcome ∨ first = initError →
            ∃ rest', f <$> first :: rest = welcome :: rest'
                     ∨ f <$> first :: rest = initError :: rest') as Hmap.
  { intros n first rest f Hf Hfirst. destruct (decimal_not_greeting n) as [Hw He].
    exists (f <$> rest). rewrite fmap_cons.
    destruct Hfirst as [->| ->]; [left|right]; rewrite Hf; try reflexivity;
      intros Heq; [apply Hw|apply He]; symmetry; exact Heq. }
  destruct e as [chat'| |open'|value|now|now|now|text| |now];
    unfold step, handleSend, set_messages, suspend, settle;
    cbn [messages pending input chatSessionRef isTyping isInitializing isOpen].
  - split; [right; exists []; left; reflexivity|exact Hbot].
  - split; [right; exists []; right; reflexivity|exact Hbot].
  - split; assumption.
  - destruct (init || typing); split; assumption.
  - destruct (trim inp) as [|c text]; [split; assumption|].
    destruct chat as [chat|]; [|split; assumption].
    destruct typing; [split; assumption|].
    cbn [messages pending input chatSessionRef isTyping isInitializing isOpen].
    split; [right|intros bot full Hp; discriminate Hp].
    destruct Hgreeted as [[_ Hc]|(rest & [->| ->])];
      [discriminate Hc|eexists; left; reflexivity|eexists; right; reflexivity].
  - destruct p; [split; assumption| |split; assumption].
    cbn [messages pending input chatSessionRef isTyping isInitializing isOpen].
    split; [right|intros bot full [= <- _]; eexists; reflexivity].
    destruct Hbusy as (first & rest & -> & Hfirst); [discriminate|]. apply Happ, Hfirst.
  - destruct p; [split; assumption| |split; assumption].
    cbn [messages pending input chatSessionRef isTyping isInitializing isOpen].
    split; [right|intros bot full Hp; discriminate Hp].
    destruct Hbusy as (first & rest & -> & Hfirst); [discriminate|]. apply Happ, Hfirst.
  - destruct text as [[|c text]|]; [destruct p; split; assumption| |destruct p; split; assumption].
    destruct p as [| |bot full]; [split; assumption|split; assumption|].
    cbn [messages pending input chatSessionRef isTyping isInitializing isOpen].
    destruct (Hbot bot full) as [n ->]; [reflexivity|].
    split; [right|intros bot' full' [= <- _]; eexists; reflexivity].
    destruct Hbusy as (first & rest & -> & Hfirst); [discriminate|].
    apply (Hmap n); [|exact Hfirst]. intros msg Hmsg. by rewrite decide_False.
  - destruct p as [| |bot full]; [split; assumption|split; assumption|].
    cbn [messages pending input chatSessionRef isTyping isInitializing isOpen].
    destruct (Hbot bot full) as [n ->]; [reflexivity|].
    split; [right|intros bot' full' Hp; discriminate Hp].
    destruct Hbusy as (first & rest & -> & Hfirst); [discriminate|].
    apply (Hmap n); [|exact Hfirst]. intros msg Hmsg. by rewrite decide_False.
  - destruct p; [split; assumption|split; assumption|].
    cbn [messages pending input chatSessionRef isTyping isInitializing isOpen].
    split; [right|intros bot full Hp; discriminate Hp].
    destruct Hbusy as (first & rest & -> & Hfirst); [discriminate|]. apply Happ, Hfirst.
Qed.

(** X17.  In every state that the component can reach, the list of messages
    is empty, and then there is no session yet, or it starts with the message
    that the initialisation put there: the welcome message or the report of
    the failed initialisation, as they were written.  No stream writes into
    them, since the identifier of an answer is a number. *)
Theorem reachable_greeted st :
  reachable st →
  (messages st = [] ∧ chatSessionRef st = None)
  ∨ ∃ rest, messages st = welcome :: rest ∨ messages st = initError :: rest.
Proof.
  intros [events ->]. change (greeted (run initial events)).
  assert (typing_inv (run initial events)
          ∧ greeted (run initial events)
          ∧ (∀ bot full, pending (run initial events) = Streaming bot full →
               ∃ n, bot = decimal n)) as (_ & ? & _); [|done].
  unfold run. induction events as [|e events IH] using rev_ind.
  - split; [|split; [by left|done]].
    unfold typing_inv. cbn. split; [|split]; [|done|by left]. split; [done|by intros []].
  - rewrite foldl_app. cbn [foldl]. destruct IH as (Hty & Hgr).
    split; [by apply step_typing_inv|by apply step_greeted].
Qed.

Lemma reachable_greeted_witness :
  (messages (run initial broken_stream) = [] ∧ chatSessionRef (run initial broken_stream) = None)
  ∨ ∃ rest, messages (run initial broken_stream) = welcome :: rest
            ∨ messages (run initial broken_stream) = initError :: rest.
Proof. apply (reachable_greeted (run initial broken_stream)). by exists broken_stream. Defined.

Lemma headers_fmap (f : ChatMessage.t → ChatMessage.t) (msgs : list ChatMessage.t) :
  (∀ msg, ChatMessage.id (f msg) = ChatMessage.id msg
          ∧ ChatMessage.role (f msg) = ChatMessage.role msg) →
  (λ msg, (ChatMessage.id msg, ChatMessage.role msg)) <$> (f <$> msgs)
  = (λ msg, (ChatMessage.id msg, ChatMessage.role msg)) <$> msgs.
Proof.
  intros Hf. rewrite <- list_fmap_compose. apply list_fmap_ext. intros i msg _.
  unfold compose. by destruct (Hf msg) as [-> ->].
Qed.

(** X18.  Apart from the two ends of the initialisation, which replace the
    list, no event removes or reorders messages or changes whose they are:
    the identifiers and roles of the messages are kept, in order, and new
    messages come after them.  A message is even kept as it is unless it
    carries the identifier of the answer that is being streamed. *)
Theorem step_keeps_messages st e :
  (∀ chat, e ≠ InitResolved chat) → e ≠ InitRejected →
  headers st `prefix_of` headers (step st e)
  ∧ ∀ i msg, messages st !! i = Some msg →
      (∀ bot full, pending st = Streaming bot full → ChatMessage.id msg ≠ bot) →
      messages (step st e) !! i = Some msg.
Proof.
  destruct st as [open msgs inp init typing chat p]. unfold headers.
  cbn [messages pending]. intros Hresolved Hrejected.
  assert (∀ more : list ChatMessage.t,
            (λ msg, (ChatMessage.id msg, ChatMessage.role msg)) <$> msgs
            `prefix_of` (λ msg, (ChatMessage.id msg, ChatMessage.role msg)) <$> (msgs ++ more)
            ∧ ∀ i msg, msgs !! i = Some msg →
                (∀ bot full, p = Streaming bot full → ChatMessage.id msg ≠ bot) →
                (msgs ++ more) !! i = Some msg) as Happ.
  { intros more. split; [rewrite fmap_app; by apply prefix_app_r|].
    intros i msg Hi _. by apply lookup_app_l_Some. }
  assert (∀ bot full (f : ChatMessage.t → ChatMessage.t),
            p = Streaming bot full →
            (∀ msg, ChatMessage.id (f msg) = ChatMessage.id msg
                    ∧ ChatMessage.role (f msg) = ChatMessage.role msg) →
            (∀ msg, ChatMessage.id msg ≠ bot → f msg = msg) →
            (λ msg, (ChatMessage.id msg, ChatMessage.role msg)) <$> msgs
            `prefix_of` (λ msg, (ChatMessage.id msg, ChatMessage.role msg)) <$> (f <$> msgs)
            ∧ ∀ i msg, msgs !! i = Some msg →
                (∀ bot full, p = Streaming bot full → ChatMessage.id msg ≠ bot) →
                (f <$> msgs) !! i = Some msg) as Hmap.
  { intros bot full f Hp Hheader Hother. split; [by rewrite headers_fmap|].
    intros i msg Hi Hfresh. rewrite list_lookup_fmap Hi. cbn. f_equal.
    by apply Hother, (Hfresh bot full). }
  destruct e as [chat'| |open'|value|now|now|now|text| |now];
    unfold step, handleSend, set_messages, suspend, settle;
    cbn [messages pending input chatSessionRef isTyping isInitializing isOpen].
  - by destruct (Hresolved chat').
  - done.
  - done.
  - by destruct (init || typing).
  - destruct (trim inp) as [|c text]; [done|]. destruct chat as [chat|]; [|done].
    destruct typing; [done|]. apply Happ.
  - destruct p; [done| |done]. apply Happ.
  - destruct p; [done| |done]. apply Happ.
  - destruct text as [[|c text]|]; [by destruct p| |by destruct p].
    destruct p as [| |bot full]; [done|done|].
    cbn [messages]. apply (Hmap bot full); [done| |].
    + intros msg. by case_decide.
    + intros msg Hmsg. by rewrite decide_False.
  - destruct p as [| |bot full]; [done|done|].
    cbn [messages]. apply (Hmap bot full); [done| |].
    + intros msg. by case_decide.
    + intros msg Hmsg. by rewrite decide_False.
  - destruct p; [done|done|]. apply Happ.
Qed.

Lemma step_keeps_messages_witness :
  headers (run initial (take 5 broken_stream))
  `prefix_of` headers (step (run initial (take 5 broken_stream)) (StreamFailed 1900))
  ∧ ∀ i msg, messages (run initial (take 5 broken_stream)) !! i = Some msg →
      (∀ bot full, pending (run initial (take 5 broken_stream)) = Streaming bot full →
         ChatMessage.id msg ≠ bot) →
      messages (step (run initial (take 5 broken_stream)) (StreamFailed 1900)) !! i
      = Some msg.
Proof.
  apply (step_keeps_messages (run initial (take 5 broken_stream)) (StreamFailed 1900));
    discriminate.
Defined.

Lemma with_text_text (msg : ChatMessage.t) : with_text msg (ChatMessage.text msg) = msg.
Proof. by destruct msg. Qed.

(** The chunks of a stream, one after the other: only the placeholder of the
    answer changes, and its text is what the chunks so far add up to. *)
Lemma run_chunks bot chunks : ∀ st full pre msg,
  pending st = Streaming bot full →
  messages st = pre ++ [msg] →
  ChatMessage.id msg = bot →
  Forall (λ other, ChatMessage.id other ≠ bot) pre →
  run st (Chunk <$> chunks)
  = {| isOpen := isOpen st;
       messages := pre ++ [if decide (chunks_text chunks = [])
                           then msg else with_text msg (full ++ chunks_text chunks)];
       input := input st; isInitializing := isInitializing st; isTyping := isTyping st;
       chatSessionRef := chatSessionRef st;
       pending := Streaming bot (full ++ chunks_text chunks) |}.
Proof.
  induction chunks as [|chunk chunks IH]; intros st full pre msg Hp Hmsgs Hid Hpre.
  - destruct st. cbn in *. subst. by rewrite app_nil_r.
  - rewrite fmap_cons. unfold run. cbn [foldl]. fold (run (step st (Chunk chunk)) (Chunk <$> chunks)).
    assert (chunks_text (chunk :: chunks) = default [] chunk ++ chunks_text chunks) as ->
      by reflexivity.
    destruct chunk as [[|c text]|].
    + assert (step st (Chunk (Some [])) = st) as -> by (unfold step; by destruct (pending st)).
      by apply IH.
    + assert (step st (Chunk (Some (c :: text)))
              = {| isOpen := isOpen st;
                   messages := pre ++ [with_text msg (full ++ c :: text)];
                   input := input st; isInitializing := isInitializing st;
                   isTyping := isTyping st; chatSessionRef := chatSessionRef st;
                   pending := Streaming bot (full ++ c :: text) |}) as ->.
      { unfold step, suspend, set_messages. rewrite Hp Hmsgs.
        cbn [messages pending input chatSessionRef isTyping isInitializing isOpen].
        f_equal. rewrite fmap_app. f_equal.
        - rewrite <- (list_fmap_id pre) at 2. apply Forall_fmap_ext_1.
          eapply Forall_impl; [exact Hpre|]. intros other Hother. by rewrite decide_False.
        - cbn. by rewrite decide_True. }
      erewrite IH; [|reflexivity|reflexivity|exact Hid|exact Hpre].
      cbn [messages pending input chatSessionRef isTyping isInitializing isOpen default].
      f_equal; [|by rewrite <- app_assoc]. f_equal. f_equal.
      destruct (decide (chunks_text chunks = [])) as [Hnil|Hnil];
        case_decide as Hcons; try discriminate Hcons.
      * by rewrite Hnil app_nil_r.
      * unfold with_text. cbn. by rewrite <- app_assoc.
    + assert (step st (Chunk None) = st) as -> by (unfold step; by destruct (pending st)).
      by apply IH.
Qed.

Lemma fmap_others bot (f : ChatMessage.t → ChatMessage.t) (pre : list ChatMessage.t) :
  (∀ msg, ChatMessage.id msg ≠ bot → f msg = msg) →
  Forall (λ other, ChatMessage.id other ≠ bot) pre →
  f <$> pre = pre.
Proof.
  intros Hf Hpre. rewrite <- (list_fmap_id pre) at 2. apply Forall_fmap_ext_1.
  eapply Forall_impl; [exact Hpre|]. intros other Hother. by apply Hf.
Qed.

(** A turn up to the last chunk of its stream. *)
Lemma run_stream st chat text now opened chunks :
  isTyping st = false →
  chatSessionRef st = Some chat →
  trim (input st) = text → text ≠ [] →
  decimal (opened + 1) ≠ decimal now →
  decimal (opened + 1) ∉ ChatMessage.id <$> messages st →
  run st ([Send now; StreamOpened opened] ++ (Chunk <$> chunks))
  = {| isOpen := isOpen st;
       messages := (messages st ++ [question now text])
                   ++ [answer opened (chunks_text chunks) true];
       input := []; isInitializing := isInitializing st; isTyping := true;
       chatSessionRef := Some {| history := history chat ++ [text] |};
       pending := Streaming (decimal (opened + 1)) (chunks_text chunks) |}
    ∧ Forall (λ other, ChatMessage.id other ≠ decimal (opened + 1))
        (messages st ++ [question now text]).
Proof.
  intros Htyping Hchat Htext Hnonempty Hnow Hfresh.
  assert (Forall (λ other, ChatMessage.id other ≠ decimal (opened + 1))
            (messages st ++ [question now text])) as Hpre.
  { apply Forall_app. split.
    - apply Forall_forall. intros other Hin Hid. apply Hfresh, list_elem_of_fmap. by exists other.
    - constructor; [|constructor]. cbn. congruence. }
  split; [|done]. unfold run. cbn [app foldl].
  assert (step st (Send now)
          = {| isOpen := isOpen st; messages := messages st ++ [question now text];
               input := []; isInitializing := isInitializing st; isTyping := true;
               chatSessionRef := Some {| history := history chat ++ [text] |};
               pending := AwaitingStream |}) as ->.
  { unfold step, handleSend. rewrite Htext Hchat Htyping.
    destruct text; [done|reflexivity]. }
  match goal with |- foldl step (step ?s ?e) _ = _ =>
    assert (step s e
            = {| isOpen := isOpen st;
                 messages := (messages st ++ [question now text]) ++ [answer opened [] true];
                 input := []; isInitializing := isInitializing st; isTyping := true;
                 chatSessionRef := Some {| history := history chat ++ [text] |};
                 pending := Streaming (decimal (opened + 1)) [] |}) as -> by reflexivity
  end.
  match goal with |- foldl step ?s _ = _ =>
    fold (run s (Chunk <$> chunks));
    rewrite (run_chunks (decimal (opened + 1)) chunks s []
               (messages st ++ [question now text]) (answer opened [] true))
  end; [|reflexivity|reflexivity|reflexivity|exact Hpre].
  cbn [messages pending input chatSessionRef isTyping isInitializing isOpen app].
  f_equal. f_equal. f_equal. case_decide as Hnil; [by rewrite Hnil|reflexivity].
Qed.

(** X19.  A turn that goes well.  In a state where no send is in flight,
    there is a session and the input holds more than white space, a send
    followed by the opening of the stream, its chunks and its end leaves:
    the messages of before, then the question, which is the trimmed input,
    then the answer, whose text is the texts of the chunks one after the
    other and which is no longer streaming; an empty input; no send in
    flight; and the question recorded in the session.  The answer must be
    given an identifier that no other message has. *)
Theorem turn_completes st chat text now opened chunks :
  isTyping st = false →
  chatSessionRef st = Some chat →
  trim (input st) = text → text ≠ [] →
  decimal (opened + 1) ≠ decimal now →
  decimal (opened + 1) ∉ ChatMessage.id <$> messages st →
  run st ([Send now; StreamOpened opened] ++ (Chunk <$> chunks) ++ [StreamEnd])
  = after_turn st chat text [question now text; answer opened (chunks_text chunks) false].
Proof.
  intros Htyping Hchat Htext Hnonempty Hnow Hfresh.
  destruct (run_stream st chat text now opened chunks) as [Hrun Hpre]; [done..|].
  rewrite app_assoc. unfold run in *. rewrite foldl_app Hrun. cbn [foldl].
  unfold step, settle, set_messages, after_turn.
  cbn [messages pending input chatSessionRef isTyping isInitializing isOpen].
  f_equal. rewrite fmap_app (fmap_others (decimal (opened + 1))); [| |exact Hpre].
  - rewrite <- app_assoc. f_equal. cbn. by rewrite decide_True.
  - intros msg Hmsg. by rewrite decide_False.
Qed.

Lemma turn_completes_witness :
  run asking ([Send 1000; StreamOpened 1400] ++ (Chunk <$> four_chunks) ++ [StreamEnd])
  = after_turn asking {| history := [lit "Here is the context for our session:"] |}
      (lit "Which video grew fastest?")
      [question 1000 (lit "Which video grew fastest?");
       answer 1400 (chunks_text four_chunks) false].
Proof.
  apply (turn_completes asking).
  - reflexivity.
  - reflexivity.
  - vm_compute. reflexivity.
  - discriminate.
  - vm_compute. discriminate.
  - apply (bool_decide_unpack _). vm_compute. exact I.
Defined.

(** X20.  A turn that goes wrong.  When the stream throws after some chunks,
    the question is kept, the answer is kept with the text of the chunks that
    came, still marked as streaming, and the error message comes after it;
    when the stream cannot be opened, the error message comes right after the
    question.  Both ways the input is empty and no send is in flight, so that
    the next question can be sent. *)
Theorem turn_fails st chat text now opened chunks failed :
  isTyping st = false →
  chatSessionRef st = Some chat →
  trim (input st) = text → text ≠ [] →
  decimal (opened + 1) ≠ decimal now →
  decimal (opened + 1) ∉ ChatMessage.id <$> messages st →
  run st ([Send now; StreamOpened opened] ++ (Chunk <$> chunks) ++ [StreamFailed failed])
  = after_turn st chat text
      [question now text; answer opened (chunks_text chunks) true; chatError failed]
  ∧ run st [Send now; StreamRejected failed]
    = after_turn st chat text [question now text; chatError failed].
Proof.
  intros Htyping Hchat Htext Hnonempty Hnow Hfresh. split.
  - destruct (run_stream st chat text now opened chunks) as [Hrun _]; [done..|].
    rewrite app_assoc. unfold run in *. rewrite foldl_app Hrun. cbn [foldl].
    unfold step, settle, set_messages, after_turn.
    cbn [messages pending input chatSessionRef isTyping isInitializing isOpen].
    f_equal. by rewrite <- !app_assoc.
  - unfold run. cbn [foldl]. unfold step at 2, handleSend. rewrite Htext Hchat Htyping.
    destruct text as [|c text]; [done|].
    unfold step, settle, set_messages, after_turn.
    cbn [messages pending input chatSessionRef isTyping isInitializing isOpen].
    f_equal. by rewrite <- !app_assoc.
Qed.

Lemma turn_fails_witness :
  run asking ([Send 1000; StreamOpened 1400] ++ (Chunk <$> four_chunks) ++ [StreamFailed 1900])
  = after_turn asking {| history := [lit "Here is the context for our session:"] |}
      (lit "Which video grew fastest?")
      [question 1000 (lit "Which video grew fastest?");
       answer 1400 (chunks_text four_chunks) true; chatError 1900]
  ∧ run asking [Send 1000; StreamRejected 1900]
    = after_turn asking {| history := [lit "Here is the context for our session:"] |}
        (lit "Which video grew fastest?")
        [question 1000 (lit "Which video grew fastest?"); chatError 1900].
Proof.
  apply (turn_fails asking).
  - reflexivity.
  - reflexivity.
  - vm_compute. reflexivity.
  - discriminate.
  - vm_compute. discriminate.
  - apply (bool_decide_unpack _). vm_compute. exact I.
Defined.

(** X21.  As long as no stream throws, the messages marked as streaming are
    under control in every state that is reached: while an answer is being
    streamed there is at most one, and it carries the identifier of that
    answer; at any other time, and so whenever no send is in flight, there is
    none. *)
Theorem failure_free_streaming events :
  (∀ now, StreamFailed now ∉ events) →
  (isTyping (run initial events) = false → streamingMessages (run initial events) = [])
  ∧ (pending (run initial events) = AwaitingStream →
       streamingMessages (run initial events) = [])
  ∧ ∀ bot full, pending (run initial events) = Streaming bot full →
      (length (streamingMessages (run initial events)) ≤ 1)%nat
      ∧ Forall (λ msg, ChatMessage.id msg = bot) (streamingMessages (run initial events)).
Proof.
  intros Hok.
  assert (in_flight (run initial events) ∧ tidy (run initial events)) as [Hfl Htidy].
  { unfold run. induction events as [|e events IH] using rev_ind.
    - split; [|reflexivity]. unfold in_flight. cbn. split; [done|discriminate].
    - rewrite foldl_app. cbn [foldl]. destruct IH as [Hfl Htidy].
      { intros now Hin. apply (Hok now), elem_of_app. by left. }
      split; [by apply step_in_flight|]. apply step_tidy; [|done..].
      intros now ->. apply (Hok now), elem_of_app. right. apply list_elem_of_here. }
  unfold tidy, in_flight in *. destruct (pending (run initial events)) as [| |bot full].
  - split; [done|]. split; [done|]. intros bot full Hp. discriminate Hp.
  - split; [done|]. split; [done|]. intros bot full Hp. discriminate Hp.
  - split; [|split; [discriminate|]].
    + intros Htyping. rewrite (proj1 Hfl) in Htyping; [discriminate|discriminate].
    + intros bot' full' [= <- _]. exact Htidy.
Qed.

Lemma failure_free_streaming_witness :
  (isTyping (run initial (take 5 broken_stream)) = false →
     streamingMessages (run initial (take 5 broken_stream)) = [])
  ∧ (pending (run initial (take 5 broken_stream)) = AwaitingStream →
       streamingMessages (run initial (take 5 broken_stream)) = [])
  ∧ ∀ bot full, pending (run initial (take 5 broken_stream)) = Streaming bot full →
      (length (streamingMessages (run initial (take 5 broken_stream))) ≤ 1)%nat
      ∧ Forall (λ msg, ChatMessage.id msg = bot)
          (streamingMessages (run initial (take 5 broken_stream))).
Proof.
  apply (failure_free_streaming (take 5 broken_stream)).
  intros now Hin. cbn [take broken_stream] in Hin.
  repeat (apply elem_of_cons in Hin as [Hin|Hin]; [discriminate Hin|]).
  by apply elem_of_nil in Hin.
Defined.



(** ** The report *)

Lemma array_map_Normal_inv {A : Type} v (f : JSValue → nat → Completion A) ys :
  array_map v f = Normal ys →
  ∃ items, v = JArray items ∧ length ys = length items
    ∧ ∀ i x, items !! i = Some x → ∃ y, ys !! i = Some y ∧ f x i = Normal y.
Proof.
  destruct v as [| | | | |items|]; try done. cbn [array_map]. intros Hmap.
  apply mapM_Normal_inv in Hmap. exists items. split; [done|]. split.
  - apply Forall2_length in Hmap. by rewrite length_imap in Hmap.
  - intros i x Hi.
    destruct (Forall2_lookup_l _ _ _ i (i, x) Hmap) as (y & Hy & Hrun).
    + by rewrite list_lookup_imap Hi.
    + by exists y.
Qed.



Lemma mapM_pure {A B : Type} (g : A → B) l :
  mapM (M := Completion) (λ x, Normal (g x)) l = Normal (g <$> l).
Proof.
  induction l as [|x l IH]; [done|].
  change (mapM (M := Completion) (λ x, Normal (g x)) (x :: l))
    with (y ← Normal (g x); k ← mapM (M := Completion) (λ x, Normal (g x)) l;
          mret (M := Completion) (y :: k)).
  by rewrite /= IH.
Qed.

Lemma fileCard_nullish file idx card :
  AnalysisReport.fileCard file idx = Normal card → nullish file = false.
Proof. by destruct file. Qed.

Lemma recommendationCard_nullish rec idx card :
  AnalysisReport.recommendationCard rec idx = Normal card → nullish rec = false.
Proof. by destruct rec. Qed.

(** X23.  What the report asks of its data.  When the component returns its
    element tree, [filesDetected] and [recommendations] were arrays without a
    [null] in them, and the tree has one card for each of their items.  So
    the component returns no tree for a result that lacks one of the two. *)
Theorem AnalysisReport_needs_arrays data report :
  AnalysisReport.AnalysisReport data = Normal report →
  ∃ files recs,
    Get data (lit "filesDetected") = Normal (JArray files)
    ∧ Get data (lit "recommendations") = Normal (JArray recs)
    ∧ length (AnalysisReport.filesDetected report) = length files
    ∧ length (AnalysisReport.recommendations report) = length recs
    ∧ Forall (λ file, nullish file = false) files
    ∧ Forall (λ rec, nullish rec = false) recs.
Proof.
  unfold AnalysisReport.AnalysisReport. intros Hrun.
  destruct (Get data (lit "filesDetected")) as [files| |]; cbn [mbind Completion_bind] in Hrun;
    [|done..].
  destruct (array_map files AnalysisReport.fileCard) as [cards| |] eqn:Hcards;
    cbn [mbind Completion_bind] in Hrun; [|done..].
  repeat match type of Hrun with
         | AnalysisReport.narrative ?d ?k ≫= _ = _ =>
             destruct (AnalysisReport.narrative d k); cbn [mbind Completion_bind] in Hrun;
             [|done..]
         end.
  destruct (Get data (lit "charts")) as [charts| |]; cbn [mbind Completion_bind] in Hrun;
    [|done..].
  match type of Hrun with ?m ≫= _ = _ =>
    destruct m; cbn [mbind Completion_bind] in Hrun; [|done..] end.
  destruct (Get data (lit "combinedStrategicInsights")); cbn [mbind Completion_bind] in Hrun;
    [|done..].
  destruct (Get data (lit "recommendations")) as [recs| |]; cbn [mbind Completion_bind] in Hrun;
    [|done..].
  destruct (array_map recs AnalysisReport.recommendationCard) as [badges| |] eqn:Hbadges;
    cbn [mbind Completion_bind] in Hrun; [|done..].
  injection Hrun as <-. cbn [AnalysisReport.filesDetected AnalysisReport.recommendations].
  apply array_map_Normal_inv in Hcards as (fileItems & -> & Hlen1 & Hfiles).
  apply array_map_Normal_inv in Hbadges as (recItems & -> & Hlen2 & Hrecs).
  exists fileItems, recItems. repeat split; try done.
  - apply Forall_lookup. intros i file Hi. destruct (Hfiles i file Hi) as (card & _ & Hcard).
    by eapply fileCard_nullish.
  - apply Forall_lookup. intros i rec Hi. destruct (Hrecs i rec Hi) as (card & _ & Hcard).
    by eapply recommendationCard_nullish.
Qed.

Lemma AnalysisReport_needs_arrays_witness :
  ∃ files recs,
    Get (JObject report_fields) (lit "filesDetected") = Normal (JArray files)
    ∧ Get (JObject report_fields) (lit "recommendations") = Normal (JArray recs)
    ∧ length (AnalysisReport.filesDetected plain_report) = length files
    ∧ length (AnalysisReport.recommendations plain_report) = length recs
    ∧ Forall (λ file, nullish file = false) files
    ∧ Forall (λ rec, nullish rec = false) recs.
Proof.
  apply (AnalysisReport_needs_arrays (JObject report_fields) plain_report).
  vm_compute. reflexivity.
Defined.

(** X24.  A result that [analyzeFiles] returns can be one that the report
    cannot show: when the response of the model parses to an object that has
    no [charts] and whose [filesDetected] is not an array, [analyzeFiles]
    returns that object, and [AnalysisReport] throws a [TypeError] on it. *)
Theorem AnalysisReport_of_partial_result API_KEY generateContent files text (fields : props) :
  missing API_KEY = false →
  generateContent (promptText files) = Normal (Some text) →
  JSON_parse text = Some (JObject fields) →
  own (lit "charts") fields = None →
  (∀ l, own (lit "filesDetected") fields ≠ Some (JArray l)) →
  analyzeFiles API_KEY generateContent files = Normal (JObject fields)
  ∧ AnalysisReport.AnalysisReport (JObject fields) = Throw TypeError.
Proof.
  intros Hkey Hgen Hparse Hcharts Hfiles. split.
  - unfold analyzeFiles. rewrite Hkey Hgen. cbn [mbind Completion_bind].
    destruct text as [|c text]; [done|]. rewrite Hparse.
    apply transformCharts_unchanged; [done|]. simpl. by rewrite Hcharts.
  - unfold AnalysisReport.AnalysisReport. cbn [Get mbind Completion_bind].
    destruct (own (lit "filesDetected") fields) as [[| | | | |l|]|]; try done.
    by destruct (Hfiles l).
Qed.

Lemma AnalysisReport_of_partial_result_witness :
  analyzeFiles (Some (lit "secret"))
    (λ _, Normal (Some (json "{'combinedStrategicInsights':'ok','recommendations':[]}")))
    [views_data]
  = Normal (JObject [(lit "combinedStrategicInsights", JString (lit "ok"));
                     (lit "recommendations", JArray [])])
  ∧ AnalysisReport.AnalysisReport
      (JObject [(lit "combinedStrategicInsights", JString (lit "ok"));
                (lit "recommendations", JArray [])])
    = Throw TypeError.
Proof.
  apply (AnalysisReport_of_partial_result (Some (lit "secret"))
           (λ _, Normal (Some (json "{'combinedStrategicInsights':'ok','recommendations':[]}")))
           [views_data]
           (json "{'combinedStrategicInsights':'ok','recommendations':[]}")).
  - reflexivity.
  - reflexivity.
  - vm_compute. reflexivity.
  - vm_compute. reflexivity.
  - intros l. vm_compute. discriminate.
Defined.

(** X25.  What the report draws for a chart with an array of [dataKeys]: a
    bar chart exactly when the [type] of the chart is the text [bar], a line
    chart for anything else, [area] included; and one series for each key, in
    order, the [k]-th with the [(k mod 5)]-th colour of the palette, so that
    every series has a colour and the sixth has the colour of the first. *)
Theorem chart_series (fields : props) keys idx :
  own (lit "dataKeys") fields = Some (JArray keys) →
  ∃ drawn, AnalysisReport.chart (JObject fields) idx = Normal drawn
    ∧ (AnalysisReport.kind drawn = AnalysisReport.BarChart
       ↔ own (lit "type") fields = Some (JString (lit "bar")))
    ∧ AnalysisReport.series drawn = series_of keys
    ∧ Forall (λ s, is_Some (AnalysisReport.colour s)) (AnalysisReport.series drawn)
    ∧ ∀ k s s', series_of keys !! k = Some s → series_of keys !! (k + 5)%nat = Some s' →
        AnalysisReport.colour s' = AnalysisReport.colour s.
Proof.
  intros Hkeys. unfold AnalysisReport.chart. cbn [Get mbind Completion_bind].
  rewrite Hkeys. change (default JUndefined (Some (JArray keys))) with (JArray keys).
  cbn [array_map].
  rewrite (mapM_pure (λ ix : nat * JSValue,
    {| AnalysisReport.dataKey := ix.2;
       AnalysisReport.colour :=
         AnalysisReport.colors !! (ix.1 mod length AnalysisReport.colors)%nat |})).
  cbn [mbind Completion_bind]. eexists. split; [reflexivity|].
  cbn [AnalysisReport.kind AnalysisReport.series].
  assert ((λ ix : nat * JSValue,
             {| AnalysisReport.dataKey := ix.2;
                AnalysisReport.colour :=
                  AnalysisReport.colors !! (ix.1 mod length AnalysisReport.colors)%nat |})
          <$> imap pair keys = series_of keys) as ->.
  { unfold series_of. rewrite fmap_imap. by apply imap_ext. }
  split; [|split; [done|split]].
  - destruct (own (lit "type") fields) as [[| | | |s| |]|]; cbn [from_option id];
      try (split; intros; discriminate).
    case_decide as Hs; [by rewrite Hs|]. split; [done|]. intros [= ->]. done.
  - unfold series_of. apply Forall_lookup. intros k s. rewrite list_lookup_imap.
    destruct (keys !! k); [|done]. intros Hs. apply (inj Some) in Hs. subst s.
    apply lookup_lt_is_Some. apply (Nat.mod_upper_bound k 5). done.
  - intros k s s'. unfold series_of. rewrite !list_lookup_imap.
    destruct (keys !! k); [|done]. destruct (keys !! (k + 5)%nat); [|done].
    intros Hs Hs'. apply (inj Some) in Hs, Hs'. subst s s'.
    unfold AnalysisReport.colour. f_equal.
    replace (k + 5)%nat with (k + 1 * 5)%nat by lia. apply Nat.Div0.mod_add.
Qed.

Lemma chart_series_witness :
  ∃ drawn,
    AnalysisReport.chart
      (JObject [(lit "type", JString (lit "area")); (lit "dataKeys", JArray seven_keys)]) 0
    = Normal drawn
    ∧ (AnalysisReport.kind drawn = AnalysisReport.BarChart
       ↔ own (lit "type")
           [(lit "type", JString (lit "area")); (lit "dataKeys", JArray seven_keys)]
         = Some (JString (lit "bar")))
    ∧ AnalysisReport.series drawn = series_of seven_keys
    ∧ Forall (λ s, is_Some (AnalysisReport.colour s)) (AnalysisReport.series drawn)
    ∧ ∀ k s s',
        series_of seven_keys !! k = Some s → series_of seven_keys !! (k + 5)%nat = Some s' →
        AnalysisReport.colour s' = AnalysisReport.colour s.
Proof.
  apply (chart_series
           [(lit "type", JString (lit "area")); (lit "dataKeys", JArray seven_keys)]
           seven_keys 0).
  vm_compute. reflexivity.
Defined.





